(** * WardenApp project-manifest scripts: a shallow embedding

  The repository ships four maintenance scripts.  Three of them edit the
  Xcode manifest [project.pbxproj] as an opaque text:

  - [add_files_auto.py]   splices build-file, file-reference and
    build-phase lines for a list of source files;
  - [add_to_xcode_v2.py]  does the same for five fixed files and also
    creates three groups and links them to existing groups;
  - [fix_file_paths.py]   rewrites the [path] field of file references.

  The fourth, [fix_overrides.py], edits Swift sources: it takes the
  keyword [override] away in front of four methods of the API handlers.

  Texts are Python [str] values, modelled as lists of characters; one
  [ascii] stands for one character of the text.  Offsets are Python
  [int]s, modelled as [Z], because [str.find] answers [-1] and the
  scripts feed that answer to slices.  The file system is a finite map
  from paths to texts, and every access a script makes is logged.
  Progress messages written to the console are left out; the error
  lines that name a missing landmark are kept.  Reading and writing
  never fail half-way, and the translation between characters and the
  bytes on disk is not part of the model. *)

From Stdlib Require Import ZArith Ascii String List Lia.
From stdpp Require Import base option list gmap strings.

Local Open Scope Z_scope.

Abbreviation text := (list ascii).

(** A string literal as a text. *)
Definition lit (s : string) : text := list_ascii_of_string s.

Definition TAB : ascii := "009"%char.
Definition NL : ascii := "010"%char.
Definition DQUOTE : ascii := "034"%char.

(** ** Python string primitives *)
Module Py.

(** [s.startswith(sub)] *)
Fixpoint startswith (sub s : text) : bool :=
  match sub, s with
  | [], _ => true
  | _ :: _, [] => false
  | a :: sub', b :: s' => if Ascii.eqb a b then startswith sub' s' else false
  end.

(** Offset of the first occurrence of [sub] in [s], scanning from the
    left. *)
Fixpoint find_nat (sub s : text) : option nat :=
  if startswith sub s then Some 0%nat
  else match s with
       | [] => None
       | _ :: s' => S <$> find_nat sub s'
       end.

(** How CPython turns a slice bound into an offset of a text of length
    [n]: a negative bound counts from the end, and the result is clamped
    to [0..n]. *)
Definition clamp (n i : Z) : Z :=
  if i <? 0 then Z.max 0 (i + n) else Z.min i n.

Definition len (s : text) : Z := Z.of_nat (length s).

(** [s.find(sub, start)] *)
Definition find (s sub : text) (start : Z) : Z :=
  let st := if start <? 0 then Z.max 0 (start + len s) else start in
  if len s <? st then -1
  else match find_nat sub (drop (Z.to_nat st) s) with
       | Some i => st + Z.of_nat i
       | None => -1
       end.

(** [s[:e]] and [s[e:]] *)
Definition slice_to (s : text) (e : Z) : text :=
  take (Z.to_nat (clamp (len s) e)) s.
Definition slice_from (s : text) (e : Z) : text :=
  drop (Z.to_nat (clamp (len s) e)) s.

(** [c.upper()] on the characters the scripts apply it to (ASCII). *)
Definition upper (c : ascii) : ascii :=
  let n := nat_of_ascii c in
  if ((97 <=? n) && (n <=? 122))%nat then ascii_of_nat (n - 32) else c.

(** [os.path.basename(p)]: what follows the last slash. *)
Fixpoint basename_acc (acc p : text) : text :=
  match p with
  | [] => acc
  | c :: p' => if Ascii.eqb c "/" then basename_acc p' p' else basename_acc acc p'
  end.
Definition basename (p : text) : text := basename_acc p p.

End Py.

(** [sub] occurs somewhere in [s]. *)
Definition occurs (sub s : text) : Prop := exists a b, s = a ++ sub ++ b.

(** ** Identifier allocation: [generate_uuid] *)
Module Uuid.

(** One digit of ['%x']. *)
Definition hex_digit (d : Z) : ascii :=
  if d <? 10 then ascii_of_nat (Z.to_nat (48 + d))
  else ascii_of_nat (Z.to_nat (87 + d)).

(** [UUID.hex], that is ['%032x' % self.int], for the 128-bit integer
    [u] of the UUID. *)
Definition hex (u : Z) : text :=
  map (fun i : nat => hex_digit (Z.land (Z.shiftr u (4 * (31 - Z.of_nat i))) 15))
      (seq 0 32).

(** [uuid.uuid4().hex[:24].upper()], where [u] is the integer of the
    UUID that [uuid4()] has drawn. *)
Definition generate_uuid (u : Z) : text :=
  map Py.upper (take 24 (hex u)).

End Uuid.

(** ** The regular expressions of the scripts

  Every pattern the scripts hand to [re] is a sequence of single
  characters, character classes, and greedy [+] repetitions of a class,
  with one capture group that starts at the first character.  [match_k]
  is the backtracking matcher for such sequences: a greedy repetition
  takes as many characters as it can and gives them back one by one
  until the rest of the pattern succeeds. *)
Module Re.

Inductive atom :=
| Chr (c : ascii)              (* an escaped or plain character *)
| Cls (p : ascii -> bool)      (* [..] or a class escape, once *)
| Plus (p : ascii -> bool).    (* the same, followed by + *)

Abbreviation regex := (list atom).

Definition literal (s : text) : regex := map Chr s.

(** [[A-F0-9]] *)
Definition hex_upper (c : ascii) : bool :=
  let n := nat_of_ascii c in
  (((48 <=? n) && (n <=? 57)) || ((65 <=? n) && (n <=? 70)))%nat.

(** [\s] on a [str] pattern, for the characters below 256. *)
Definition space (c : ascii) : bool :=
  let n := nat_of_ascii c in
  (((9 <=? n) && (n <=? 13)) || ((28 <=? n) && (n <=? 32))
   || (n =? 133) || (n =? 160))%nat.

(** [[^;]] *)
Definition not_semicolon (c : ascii) : bool := negb (Ascii.eqb c ";").

(** Greedy [p*] followed by the continuation [k]; answers the number of
    characters the repetition kept and what [k] answered. *)
Fixpoint star {A} (p : ascii -> bool) (k : text -> option A) (s : text)
  : option (nat * A) :=
  match s with
  | c :: r =>
      if p c then
        match star p k r with
        | Some (n, a) => Some (S n, a)
        | None => pair 0%nat <$> k s
        end
      else pair 0%nat <$> k s
  | [] => pair 0%nat <$> k s
  end.

(** Match [re] at the head of [s], then [k] on what is left. *)
Fixpoint match_k {A} (re : regex) (k : text -> option A) (s : text)
  : option (nat * A) :=
  match re with
  | [] => pair 0%nat <$> k s
  | Chr c :: re' =>
      match s with
      | x :: r =>
          if Ascii.eqb x c
          then (fun '(n, a) => (S n, a)) <$> match_k re' k r
          else None
      | [] => None
      end
  | Cls p :: re' =>
      match s with
      | x :: r =>
          if p x
          then (fun '(n, a) => (S n, a)) <$> match_k re' k r
          else None
      | [] => None
      end
  | Plus p :: re' =>
      match s with
      | x :: r =>
          if p x
          then (fun '(n, (m, a)) => (S (n + m), a)) <$> star p (match_k re' k) r
          else None
      | [] => None
      end
  end.

(** A pattern [(grp)rest]. *)
Record pattern := { grp : regex; rest : regex }.

Definition accept (s : text) : option unit := Some tt.

(** The match of [pat] at the head of [s]: the length of group 1 and
    the length of what follows it. *)
Definition match_at (pat : pattern) (s : text) : option (nat * nat) :=
  (fun '(n, (m, _)) => (n, m)) <$> match_k (grp pat) (match_k (rest pat) accept) s.

(** [re.search(pat, s)]: the offset of the leftmost match and its two
    lengths. *)
Fixpoint search_from (pat : pattern) (s : text) (i : nat)
  : option (nat * (nat * nat)) :=
  match match_at pat s with
  | Some nm => Some (i, nm)
  | None => match s with
            | [] => None
            | _ :: r => search_from pat r (S i)
            end
  end.

(** [re.search(pat, s).group(1)], or [None] *)
Definition search_group1 (pat : pattern) (s : text) : option text :=
  (fun '(i, (n, _)) => take n (drop i s)) <$> search_from pat s 0.

(** [re.sub(pat, r'\1' + after, s)]: every match, leftmost first and
    without overlap, is replaced by its group 1 followed by [after].
    [skip] counts the characters of the current match still to pass. *)
Fixpoint sub_go (pat : pattern) (after : text) (skip : nat) (s : text) : text :=
  match s with
  | [] =>
      match skip, match_at pat [] with
      | O, Some _ => after
      | _, _ => []
      end
  | c :: r =>
      match skip with
      | S k => sub_go pat after k r
      | O =>
          match match_at pat s with
          | Some (n, m) =>
              take n s ++ after ++
              match (n + m)%nat with
              | O => c :: sub_go pat after 0 r
              | S k => sub_go pat after k r
              end
          | None => c :: sub_go pat after 0 r
          end
      end
  end.

Definition sub (pat : pattern) (after : text) (s : text) : text :=
  sub_go pat after 0 s.

End Re.

(** ** The scripts' view of the machine

  A script runs against a file system, a console and the source of
  randomness behind [uuid.uuid4()].  [M] threads that state and stops at
  [exit(..)] or at an uncaught exception. *)
Module Sys.

Inductive event :=
| Exists (p : string)                    (* os.path.exists(p) *)
| Read (p : string)                      (* open(p, 'r').read() *)
| Copy (src dst : string) (data : text)  (* shutil.copy2(src, dst) *)
| Truncate (p : string)                  (* open(p, 'w') *)
| Write (p : string) (data : text)       (* f.write(data), then close *)
| Print (line : text).                   (* print(line) *)

Record world := {
  files : gmap string text;   (* path -> content *)
  log : list event;           (* what the script did, oldest first *)
  random : nat -> Z;          (* the UUID integers uuid4() will draw *)
  drawn : nat                 (* how many have been drawn *)
}.

Inductive result (A : Type) :=
| Done (a : A)
| Exit (code : Z)
| Raise (exn : string).
Arguments Done {A} a.
Arguments Exit {A} code.
Arguments Raise {A} exn.

Definition M (A : Type) : Type := world -> result A * world.

Definition ret {A} (a : A) : M A := fun w => (Done a, w).

Definition bind {A B} (m : M A) (f : A -> M B) : M B :=
  fun w =>
    match m w with
    | (Done a, w') => f a w'
    | (Exit c, w') => (Exit c, w')
    | (Raise e, w') => (Raise e, w')
    end.

Definition note (e : event) (w : world) : world :=
  {| files := files w; log := log w ++ [e]; random := random w; drawn := drawn w |}.

Definition store (p : string) (data : text) (w : world) : world :=
  {| files := <[p := data]> (files w); log := log w;
     random := random w; drawn := drawn w |}.

Definition exit {A} (code : Z) : M A := fun w => (Exit code, w).

Definition print (line : text) : M unit := fun w => (Done tt, note (Print line) w).

Definition path_exists (p : string) : M bool :=
  fun w => (Done (bool_decide (is_Some (files w !! p))), note (Exists p) w).

Definition read (p : string) : M text :=
  fun w =>
    match files w !! p with
    | Some c => (Done c, note (Read p) w)
    | None => (Raise "FileNotFoundError", note (Read p) w)
    end.

Definition copy2 (src dst : string) : M unit :=
  fun w =>
    match files w !! src with
    | Some c => (Done tt, note (Copy src dst c) (store dst c w))
    | None => (Raise "FileNotFoundError", w)
    end.

(** [with open(p, 'w') as f: f.write(data)]: opening for writing
    empties the file, the data reach it afterwards. *)
Definition open_w (p : string) : M unit :=
  fun w => (Done tt, note (Truncate p) (store p [] w)).
Definition write (p : string) (data : text) : M unit :=
  fun w => (Done tt, note (Write p data) (store p data w)).

Definition uuid4 : M Z :=
  fun w => (Done (random w (drawn w)),
            {| files := files w; log := log w; random := random w;
               drawn := S (drawn w) |}).

Definition generate_uuid : M text :=
  bind uuid4 (fun u => ret (Uuid.generate_uuid u)).

(** The content of path [p] after each event of a log, starting from
    the content [c0]. *)
Definition touch (p : string) (c : option text) (e : event) : option text :=
  match e with
  | Copy _ dst data => if String.eqb dst p then Some data else c
  | Truncate q => if String.eqb q p then Some [] else c
  | Write q data => if String.eqb q p then Some data else c
  | _ => c
  end.

Fixpoint observed (p : string) (c0 : option text) (l : list event)
  : list (option text) :=
  match l with
  | [] => []
  | e :: l' => touch p c0 e :: observed p (touch p c0 e) l'
  end.

Definition start (fs : gmap string text) (rnd : nat -> Z) : world :=
  {| files := fs; log := []; random := rnd; drawn := 0 |}.

End Sys.

Declare Scope sys_scope.
Delimit Scope sys_scope with sys.
Notation "'do' x <- m ; k" := (Sys.bind m (fun x => k))
(at level 10, x name, m at level 100, k at level 200) : sys_scope.
Notation "'do_' m ; k" := (Sys.bind m (fun _ => k))
(at level 10, m at level 100, k at level 200) : sys_scope.

(** ** add_files_auto.py *)
Module AddFilesAuto.
Import Sys.
Local Open Scope sys_scope.

Record entry := {
  filepath : string;
  filename : text;
  file_ref_uuid : text;
  build_file_uuid : text
}.

(** The three record lines rendered for one entry (the f-strings of
    the script). *)
Definition build_file_entry (e : entry) : text :=
  [TAB; TAB] ++ build_file_uuid e ++ lit " /* " ++ filename e
  ++ lit " in Sources */ = {isa = PBXBuildFile; fileRef = "
  ++ file_ref_uuid e ++ lit " /* " ++ filename e ++ lit " */; };" ++ [NL].

Definition file_ref_entry (e : entry) : text :=
  [TAB; TAB] ++ file_ref_uuid e ++ lit " /* " ++ filename e
  ++ lit " */ = {isa = PBXFileReference; lastKnownFileType = sourcecode.swift; path = "
  ++ filename e ++ lit "; sourceTree = " ++ [DQUOTE] ++ lit "<group>"
  ++ [DQUOTE] ++ lit "; };" ++ [NL].

Definition source_ref_entry (e : entry) : text :=
  [TAB; TAB; TAB; TAB] ++ build_file_uuid e ++ lit " /* " ++ filename e
  ++ lit " in Sources */," ++ [NL].

(** [content[:at] + ''.join(lines) + content[at:]] *)
Definition splice (content : text) (at_ : Z) (lines : list text) : text :=
  Py.slice_to content at_ ++ concat lines ++ Py.slice_from content at_.

(** The block that adds the [PBXBuildFile] lines. *)
Definition add_build_files (file_entries : list entry) (content : text)
  : text + text :=
  let build_file_section_start :=
    Py.find content (lit "/* Begin PBXBuildFile section */") 0 in
  if build_file_section_start =? -1
  then inl (lit "Error: Could not find PBXBuildFile section")
  else
    let build_file_section_end :=
      Py.find content (lit "/* End PBXBuildFile section */")
              build_file_section_start in
    let build_file_entries := map build_file_entry file_entries in
    inr (splice content build_file_section_end build_file_entries).

(** The block that adds the [PBXFileReference] lines. *)
Definition add_file_refs (file_entries : list entry) (content : text)
  : text + text :=
  let file_ref_section_start :=
    Py.find content (lit "/* Begin PBXFileReference section */") 0 in
  if file_ref_section_start =? -1
  then inl (lit "Error: Could not find PBXFileReference section")
  else
    let file_ref_section_end :=
      Py.find content (lit "/* End PBXFileReference section */")
              file_ref_section_start in
    let file_ref_entries := map file_ref_entry file_entries in
    inr (splice content file_ref_section_end file_ref_entries).

(** The block that adds the lines of the sources build phase. *)
Definition add_source_refs (file_entries : list entry) (content : text)
  : text + text :=
  let sources_build_phase_start :=
    Py.find content (lit "/* Begin PBXSourcesBuildPhase section */") 0 in
  if sources_build_phase_start =? -1
  then inl (lit "Error: Could not find PBXSourcesBuildPhase section")
  else
    let files_array_start :=
      Py.find content (lit "files = (") sources_build_phase_start in
    if files_array_start =? -1
    then inl (lit "Error: Could not find files array in PBXSourcesBuildPhase")
    else
      let files_array_end := Py.find content (lit ");") files_array_start in
      let source_ref_entries := map source_ref_entry file_entries in
      inr (splice content files_array_end source_ref_entries).

(** The text part of [add_files_to_pbxproj]: the three blocks in the
    order of the script; the first landmark that is not found ends it
    with the line the script prints. *)
Definition patch (file_entries : list entry) (content : text) : text + text :=
  match add_build_files file_entries content with
  | inl msg => inl msg
  | inr content =>
      match add_file_refs file_entries content with
      | inl msg => inl msg
      | inr content => add_source_refs file_entries content
      end
  end.

(** The loop that draws two identifiers per file. *)
Fixpoint make_entries (files_to_add : list string) : M (list entry) :=
  match files_to_add with
  | [] => ret []
  | filepath :: more =>
      do file_ref_uuid <- generate_uuid;
      do build_file_uuid <- generate_uuid;
      do entries <- make_entries more;
      ret ({| filepath := filepath;
              filename := Py.basename (lit filepath);
              file_ref_uuid := file_ref_uuid;
              build_file_uuid := build_file_uuid |} :: entries)
  end.

Definition add_files_to_pbxproj (pbxproj_path : string)
           (files_to_add : list string) : M bool :=
  do content <- read pbxproj_path;
  do file_entries <- make_entries files_to_add;
  match patch file_entries content with
  | inl msg => do_ print msg; ret false
  | inr content =>
      do_ open_w pbxproj_path;
      do_ write pbxproj_path content;
      ret true
  end.

(** The loop that collects the paths that do not exist. *)
Fixpoint missing_files (files_to_add : list string) : M (list string) :=
  match files_to_add with
  | [] => ret []
  | filepath :: more =>
      do found <- path_exists filepath;
      do missing <- missing_files more;
      ret (if found then missing else filepath :: missing)
  end.

Fixpoint print_missing (missing : list string) : M unit :=
  match missing with
  | [] => ret tt
  | f :: more => do_ print (lit "  - " ++ lit f); print_missing more
  end.

(** The [__main__] block, for a manifest path and a list of files. *)
Definition main (pbxproj_path : string) (files_to_add : list string) : M unit :=
  do missing <- missing_files files_to_add;
  match missing with
  | _ :: _ => do_ print_missing missing; exit 1
  | [] =>
      let backup_path := (pbxproj_path +:+ ".backup")%string in
      do_ copy2 pbxproj_path backup_path;
      do ok <- add_files_to_pbxproj pbxproj_path files_to_add;
      if ok then ret tt
      else do_ copy2 backup_path pbxproj_path; exit 1
  end.

(** The constants of the script. *)
Definition pbxproj_path : string :=
  "/Users/karatsidhu/Developer/WardenApp/Warden.xcodeproj/project.pbxproj".
Definition files_to_add : list string :=
  [ "/Users/karatsidhu/Developer/WardenApp/Warden/Core/MCP/MCPServerConfig.swift";
    "/Users/karatsidhu/Developer/WardenApp/Warden/Core/MCP/MCPManager.swift";
    "/Users/karatsidhu/Developer/WardenApp/Warden/UI/Preferences/MCP/AddMCPAgentSheet.swift";
    "/Users/karatsidhu/Developer/WardenApp/Warden/UI/Preferences/MCP/MCPSettingsView.swift";
    "/Users/karatsidhu/Developer/WardenApp/Warden/UI/Chat/MCPAgentSelector.swift" ]%string.

End AddFilesAuto.

(** ** add_to_xcode_v2.py *)
Module AddToXcodeV2.
Import Sys.
Local Open Scope sys_scope.

(** One value of the [file_data] dictionary. *)
Record file_info := {
  path : text;
  group_uuid : option text;
  file_ref_uuid : text;
  build_file_uuid : text
}.

(** [file_data]: a dictionary with five fixed keys. *)
Record file_data := {
  MCPServerConfig : file_info;
  MCPManager : file_info;
  AddMCPAgentSheet : file_info;
  MCPSettingsView : file_info;
  MCPAgentSelector : file_info
}.

(** [file_data.items()], in insertion order. *)
Definition items (d : file_data) : list (text * file_info) :=
  [ (lit "MCPServerConfig.swift", MCPServerConfig d);
    (lit "MCPManager.swift", MCPManager d);
    (lit "AddMCPAgentSheet.swift", AddMCPAgentSheet d);
    (lit "MCPSettingsView.swift", MCPSettingsView d);
    (lit "MCPAgentSelector.swift", MCPAgentSelector d) ].

(** [file_data['MCPAgentSelector.swift']['group_uuid'] = g] *)
Definition set_selector_group (d : file_data) (g : text) : file_data :=
  {| MCPServerConfig := MCPServerConfig d;
     MCPManager := MCPManager d;
     AddMCPAgentSheet := AddMCPAgentSheet d;
     MCPSettingsView := MCPSettingsView d;
     MCPAgentSelector :=
       {| path := path (MCPAgentSelector d);
          group_uuid := Some g;
          file_ref_uuid := file_ref_uuid (MCPAgentSelector d);
          build_file_uuid := build_file_uuid (MCPAgentSelector d) |} |}.

(** The identifiers of the three groups the script creates. *)
Record group_ids := {
  core_group_uuid : text;
  core_mcp_group_uuid : text;
  ui_prefs_mcp_group_uuid : text
}.

Definition hex24 : Re.regex := repeat (Re.Cls Re.hex_upper) 24.

(** [([A-F0-9]{24}) /\* NAME \*/ = \{] *)
Definition group_head (name : string) : Re.pattern :=
  {| Re.grp := hex24;
     Re.rest := Re.literal (lit " /* " ++ lit name ++ lit " */ = {") |}.

(** [([A-F0-9]{24}) /\* Warden \*/ = \{\n\s+isa = PBXGroup;] *)
Definition warden_head : Re.pattern :=
  {| Re.grp := hex24;
     Re.rest := Re.literal (lit " /* Warden */ = {")
                ++ [Re.Chr NL; Re.Plus Re.space]
                ++ Re.literal (lit "isa = PBXGroup;") |}.

(** [(UUID /\* NAME \*/ = \{\n\s+isa = PBXGroup;\n\s+children = \()] *)
Definition children_open (uuid : text) (name : string) : Re.pattern :=
  {| Re.grp := Re.literal (uuid ++ lit " /* " ++ lit name ++ lit " */ = {")
               ++ [Re.Chr NL; Re.Plus Re.space]
               ++ Re.literal (lit "isa = PBXGroup;")
               ++ [Re.Chr NL; Re.Plus Re.space]
               ++ Re.literal (lit "children = (");
     Re.rest := [] |}.

(** The lines rendered from [file_data]. *)
Definition build_file_entry (filename : text) (data : file_info) : text :=
  [TAB; TAB] ++ build_file_uuid data ++ lit " /* " ++ filename
  ++ lit " in Sources */ = {isa = PBXBuildFile; fileRef = "
  ++ file_ref_uuid data ++ lit " /* " ++ filename ++ lit " */; };" ++ [NL].

Definition file_ref_entry (filename : text) (data : file_info) : text :=
  [TAB; TAB] ++ file_ref_uuid data ++ lit " /* " ++ filename
  ++ lit " */ = {isa = PBXFileReference; lastKnownFileType = sourcecode.swift; path = "
  ++ filename ++ lit "; sourceTree = " ++ [DQUOTE] ++ lit "<group>"
  ++ [DQUOTE] ++ lit "; };" ++ [NL].

Definition source_ref_entry (filename : text) (data : file_info) : text :=
  [TAB; TAB; TAB; TAB] ++ build_file_uuid data ++ lit " /* " ++ filename
  ++ lit " in Sources */," ++ [NL].

(** One line of a [children] list. *)
Definition child_line (uuid : text) (name : string) : text :=
  [TAB; TAB; TAB; TAB] ++ uuid ++ lit " /* " ++ lit name ++ lit " */," ++ [NL].

(** A group record, as the three triple-quoted f-strings spell it. *)
Definition group_record (uuid : text) (name : string) (children : list text)
  : text :=
  [TAB; TAB] ++ uuid ++ lit " /* " ++ lit name ++ lit " */ = {" ++ [NL]
  ++ [TAB; TAB; TAB] ++ lit "isa = PBXGroup;" ++ [NL]
  ++ [TAB; TAB; TAB] ++ lit "children = (" ++ [NL]
  ++ concat children
  ++ [TAB; TAB; TAB] ++ lit ");" ++ [NL]
  ++ [TAB; TAB; TAB] ++ lit "path = " ++ lit name ++ lit ";" ++ [NL]
  ++ [TAB; TAB; TAB] ++ lit "sourceTree = " ++ [DQUOTE] ++ lit "<group>"
  ++ [DQUOTE] ++ lit ";" ++ [NL]
  ++ [TAB; TAB] ++ lit "};" ++ [NL].

Definition core_group (g : group_ids) : text :=
  group_record (core_group_uuid g) "Core"
    [child_line (core_mcp_group_uuid g) "MCP"].

Definition core_mcp_group (g : group_ids) (d : file_data) : text :=
  group_record (core_mcp_group_uuid g) "MCP"
    [child_line (file_ref_uuid (MCPServerConfig d)) "MCPServerConfig.swift";
     child_line (file_ref_uuid (MCPManager d)) "MCPManager.swift"].

Definition ui_prefs_mcp_group (g : group_ids) (d : file_data) : text :=
  group_record (ui_prefs_mcp_group_uuid g) "MCP"
    [child_line (file_ref_uuid (AddMCPAgentSheet d)) "AddMCPAgentSheet.swift";
     child_line (file_ref_uuid (MCPSettingsView d)) "MCPSettingsView.swift"].

(** What [\1\n\t\t\t\tUUID /* NAME */,] adds after group 1. *)
Definition child_after (uuid : text) (name : text) : text :=
  [NL; TAB; TAB; TAB; TAB] ++ uuid ++ lit " /* " ++ name ++ lit " */,".

Definition splice (content : text) (at_ : Z) (lines : list text) : text :=
  Py.slice_to content at_ ++ concat lines ++ Py.slice_from content at_.

(** 1. Add PBXBuildFile entries *)
Definition step1 (d : file_data) (content : text) : text :=
  let build_file_section_start :=
    Py.find content (lit "/* Begin PBXBuildFile section */") 0 in
  let build_file_section_end :=
    Py.find content (lit "/* End PBXBuildFile section */")
            build_file_section_start in
  let build_file_entries :=
    map (fun '(filename, data) => build_file_entry filename data) (items d) in
  splice content build_file_section_end build_file_entries.

(** 2. Add PBXFileReference entries *)
Definition step2 (d : file_data) (content : text) : text :=
  let file_ref_section_start :=
    Py.find content (lit "/* Begin PBXFileReference section */") 0 in
  let file_ref_section_end :=
    Py.find content (lit "/* End PBXFileReference section */")
            file_ref_section_start in
  let file_ref_entries :=
    map (fun '(filename, data) => file_ref_entry filename data) (items d) in
  splice content file_ref_section_end file_ref_entries.

(** 3. Add to PBXSourcesBuildPhase *)
Definition step3 (d : file_data) (content : text) : text :=
  let sources_build_phase_start :=
    Py.find content (lit "/* Begin PBXSourcesBuildPhase section */") 0 in
  let files_array_start :=
    Py.find content (lit "files = (") sources_build_phase_start in
  let files_array_end := Py.find content (lit ");") files_array_start in
  let source_ref_entries :=
    map (fun '(filename, data) => source_ref_entry filename data) (items d) in
  splice content files_array_end source_ref_entries.

(** 4. Create Core group and add it to Warden group: the three new
    group records go in front of the end of the group section. *)
Definition step4 (g : group_ids) (d : file_data) (content : text) : text :=
  let group_section_start :=
    Py.find content (lit "/* Begin PBXGroup section */") 0 in
  let group_section_end :=
    Py.find content (lit "/* End PBXGroup section */") group_section_start in
  splice content group_section_end
         [core_group g; core_mcp_group g d; ui_prefs_mcp_group g d].

(** 5. Add Core group to Warden group children *)
Definition step5 (g : group_ids) (warden_group_uuid : text) (content : text)
  : text :=
  Re.sub (children_open warden_group_uuid "Warden")
         (child_after (core_group_uuid g) (lit "Core")) content.

(** 6. Add MCP group to Preferences group children *)
Definition step6 (g : group_ids) (prefs_group_uuid : text) (content : text)
  : text :=
  Re.sub (children_open prefs_group_uuid "Preferences")
         (child_after (ui_prefs_mcp_group_uuid g) (lit "MCP")) content.

(** 7. Add MCPAgentSelector to Chat group *)
Definition step7 (d : file_data) (chat_group_uuid : text) (content : text)
  : text :=
  Re.sub (children_open chat_group_uuid "Chat")
         (child_after (file_ref_uuid (MCPAgentSelector d))
                      (lit "MCPAgentSelector.swift")) content.

(** The seven numbered steps of the script, in order, for the
    identifiers of the three landmark groups found before. *)
Definition steps (g : group_ids) (d : file_data)
           (chat_group_uuid prefs_group_uuid warden_group_uuid : text)
           (content : text) : text :=
  let content := step1 d content in
  let content := step2 d content in
  let content := step3 d content in
  let content := step4 g d content in
  let content := step5 g warden_group_uuid content in
  let content := step6 g prefs_group_uuid content in
  let content := step7 d chat_group_uuid content in
  content.

(** The text part of the script: the three landmark groups are looked
    up, a miss ends the run with the line the script prints (without
    the glyph in front of it), then the seven steps run. *)
Definition patch (g : group_ids) (d : file_data) (content : text)
  : text + text :=
  match Re.search_group1 (group_head "Chat") content with
  | None => inl (lit "Could not find Chat group UUID")
  | Some chat_group_uuid =>
      let d := set_selector_group d chat_group_uuid in
      match Re.search_group1 (group_head "Preferences") content with
      | None => inl (lit "Could not find Preferences group UUID")
      | Some prefs_group_uuid =>
          match Re.search_group1 warden_head content with
          | None => inl (lit "Could not find Warden group UUID")
          | Some warden_group_uuid =>
              inr (steps g d chat_group_uuid prefs_group_uuid
                         warden_group_uuid content)
          end
      end
  end.

Definition new_info (path : string) (group : option text) : M file_info :=
  do file_ref_uuid <- generate_uuid;
  do build_file_uuid <- generate_uuid;
  ret {| path := lit path; group_uuid := group;
         file_ref_uuid := file_ref_uuid; build_file_uuid := build_file_uuid |}.

(** The script, for a manifest path. *)
Definition main (pbxproj_path : string) : M unit :=
  do content <- read pbxproj_path;
  let backup_path := (pbxproj_path +:+ ".backup2")%string in
  do_ copy2 pbxproj_path backup_path;
  do core_group_uuid <- generate_uuid;
  do core_mcp_group_uuid <- generate_uuid;
  do ui_prefs_mcp_group_uuid <- generate_uuid;
  do f1 <- new_info "Core/MCP/MCPServerConfig.swift" (Some core_mcp_group_uuid);
  do f2 <- new_info "Core/MCP/MCPManager.swift" (Some core_mcp_group_uuid);
  do f3 <- new_info "UI/Preferences/MCP/AddMCPAgentSheet.swift"
                    (Some ui_prefs_mcp_group_uuid);
  do f4 <- new_info "UI/Preferences/MCP/MCPSettingsView.swift"
                    (Some ui_prefs_mcp_group_uuid);
  do f5 <- new_info "UI/Chat/MCPAgentSelector.swift" None;
  let file_data :=
    {| MCPServerConfig := f1; MCPManager := f2; AddMCPAgentSheet := f3;
       MCPSettingsView := f4; MCPAgentSelector := f5 |} in
  let g := {| core_group_uuid := core_group_uuid;
              core_mcp_group_uuid := core_mcp_group_uuid;
              ui_prefs_mcp_group_uuid := ui_prefs_mcp_group_uuid |} in
  match patch g file_data content with
  | inl msg => do_ print msg; exit 1
  | inr content =>
      do_ open_w pbxproj_path;
      do_ write pbxproj_path content;
      ret tt
  end.

Definition pbxproj_path : string :=
  "/Users/karatsidhu/Developer/WardenApp/Warden.xcodeproj/project.pbxproj".

End AddToXcodeV2.

(** ** fix_file_paths.py *)
Module FixFilePaths.
Import Sys.
Local Open Scope sys_scope.

(** [(\/\* NAME \*/ = {isa = PBXFileReference;[^;]+path = )NAME], with
    [NAME] escaped. *)
Definition pattern (filename : text) : Re.pattern :=
  {| Re.grp := Re.literal (lit "/* " ++ filename
                           ++ lit " */ = {isa = PBXFileReference;")
               ++ [Re.Plus Re.not_semicolon]
               ++ Re.literal (lit "path = ");
     Re.rest := Re.literal filename |}.

(** The loop over [file_fixes.items()].  The replacement [\1] followed
    by the corrected path is read as a template; the corrected paths
    of the script hold no backslash and start with no digit, so they
    stand for themselves. *)
Definition fix_paths (file_fixes : list (text * text)) (content : text) : text :=
  foldl (fun content '(filename, correct_path) =>
           Re.sub (pattern filename) correct_path content)
        content file_fixes.

Definition file_fixes : list (text * text) :=
  [ (lit "MCPServerConfig.swift", lit "Core/MCP/MCPServerConfig.swift");
    (lit "MCPManager.swift", lit "Core/MCP/MCPManager.swift");
    (lit "AddMCPAgentSheet.swift", lit "UI/Preferences/MCP/AddMCPAgentSheet.swift");
    (lit "MCPSettingsView.swift", lit "UI/Preferences/MCP/MCPSettingsView.swift");
    (lit "MCPAgentSelector.swift", lit "UI/Chat/MCPAgentSelector.swift") ].

(** The script, for a manifest path and a table of corrections. *)
Definition main (pbxproj_path : string) (file_fixes : list (text * text))
  : M unit :=
  do content <- read pbxproj_path;
  let content := fix_paths file_fixes content in
  do_ open_w pbxproj_path;
  write pbxproj_path content.

End FixFilePaths.

(** ** fix_overrides.py *)
Module FixOverrides.
Import Sys.
Local Open Scope sys_scope.

(** [\w] on a [str] pattern, for the characters below 256. *)
Definition word (c : ascii) : bool :=
  let n := nat_of_ascii c in
  (((48 <=? n) && (n <=? 57)) || ((65 <=? n) && (n <=? 90)) || (n =? 95)
   || ((97 <=? n) && (n <=? 122)) || (n =? 170) || ((178 <=? n) && (n <=? 179))
   || (n =? 181) || ((185 <=? n) && (n <=? 186)) || ((188 <=? n) && (n <=? 190))
   || ((192 <=? n) && (n <=? 214)) || ((216 <=? n) && (n <=? 246))
   || (248 <=? n))%nat.

(** [\b] behind the character [prev]: exactly one of [prev] and the
    next character is a word character; the end of the text counts as
    none. *)
Definition boundary (prev : ascii) (s : text) : option unit :=
  let next := match s with
              | c :: _ => word c
              | [] => false
              end in
  if xorb (word prev) next then Some tt else None.

(** The pattern [(\s+)override\s+(func\s+METHOD\b)], with [METHOD]
    escaped, in its three parts: group 1, what stands between the
    groups, and group 2 without its boundary. *)
Definition group1 : Re.regex := [Re.Plus Re.space].
Definition keyword : Re.regex := Re.literal (lit "override") ++ [Re.Plus Re.space].
Definition group2 (method : text) : Re.regex :=
  Re.literal (lit "func") ++ [Re.Plus Re.space] ++ Re.literal method.

(** The character in front of the boundary: the last one of the method
    name, or of the white space before it when the name is empty. *)
Definition before_boundary (method : text) : ascii :=
  default " "%char (last method).

(** The match of the pattern at the head of [s]: the lengths of group 1,
    of what stands between the groups, and of group 2. *)
Definition match_at (method : text) (s : text) : option (nat * (nat * nat)) :=
  (fun '(n1, (n2, (n3, _))) => (n1, (n2, n3)))
    <$> Re.match_k group1
          (Re.match_k keyword
             (Re.match_k (group2 method) (boundary (before_boundary method)))) s.

(** [re.sub(pattern, r'\1\2', s)]: every match, leftmost first and
    without overlap, is replaced by its two groups.  [skip] counts the
    characters of the current match still to pass.  The pattern matches
    no empty text, so nothing is tried at the end of [s]. *)
Fixpoint sub_go (method : text) (skip : nat) (s : text) : text :=
  match s with
  | [] => []
  | c :: r =>
      match skip with
      | S k => sub_go method k r
      | O =>
          match match_at method s with
          | Some (n1, (n2, n3)) =>
              take n1 s ++ take n3 (drop (n1 + n2) s) ++
              match (n1 + n2 + n3)%nat with
              | O => c :: sub_go method 0 r
              | S k => sub_go method k r
              end
          | None => c :: sub_go method 0 r
          end
      end
  end.

Definition remove_override (method : text) (content : text) : text :=
  sub_go method 0 content.

(** The loop over [methods_to_fix]. *)
Definition fix_content (methods_to_fix : list text) (content : text) : text :=
  foldl (fun content method => remove_override method content)
        content methods_to_fix.

Definition handlers : list string :=
  [ "/Users/karatsidhu/Developer/WardenApp/Warden/Utilities/APIHandlers/DeepseekHandler.swift";
    "/Users/karatsidhu/Developer/WardenApp/Warden/Utilities/APIHandlers/MistralHandler.swift";
    "/Users/karatsidhu/Developer/WardenApp/Warden/Utilities/APIHandlers/LMStudioHandler.swift";
    "/Users/karatsidhu/Developer/WardenApp/Warden/Utilities/APIHandlers/OpenRouterHandler.swift";
    "/Users/karatsidhu/Developer/WardenApp/Warden/Utilities/APIHandlers/ClaudeHandler.swift";
    "/Users/karatsidhu/Developer/WardenApp/Warden/Utilities/APIHandlers/PerplexityHandler.swift";
    "/Users/karatsidhu/Developer/WardenApp/Warden/Utilities/APIHandlers/OllamaHandler.swift" ].

Definition methods_to_fix : list text :=
  [ lit "prepareRequest"; lit "parseJSONResponse";
    lit "parseDeltaJSONResponse"; lit "sendMessageStream" ].

(** The script, for a list of handler paths and a list of methods: a
    path that does not exist is passed over. *)
Fixpoint main (handlers : list string) (methods_to_fix : list text) : M unit :=
  match handlers with
  | [] => ret tt
  | handler_path :: handlers' =>
      do found <- path_exists handler_path;
      if found
      then
        do content <- read handler_path;
        let content := fix_content methods_to_fix content in
        do_ open_w handler_path;
        do_ write handler_path content;
        main handlers' methods_to_fix
      else main handlers' methods_to_fix
  end.

End FixOverrides.

(** * Vocabulary for the statements *)
Module Run.
Import Sys.

(** The world after a list of further events. *)
Definition notes (es : list event) (w : world) : world :=
  {| files := files w; log := log w ++ es; random := random w; drawn := drawn w |}.

(** The world after [n] further draws. *)
Definition advance (n : nat) (w : world) : world :=
  {| files := files w; log := log w; random := random w;
     drawn := (n + drawn w)%nat |}.

(** What a run from [w] to [w'] has added to the log. *)
Definition events_since (w w' : world) : list event :=
  drop (length (log w)) (log w').

(** Events that neither read nor change any file. *)
Definition looks_only (e : event) : bool :=
  match e with
  | Exists _ | Print _ => true
  | _ => false
  end.

(** Events that ask whether a path exists. *)
Definition asks_existence (e : event) : bool :=
  match e with
  | Exists _ => true
  | _ => false
  end.

(** The text [E] stands at the end of [s] and nowhere before. *)
Definition only_at_end (E s : text) : Prop :=
  (exists pre, s = pre ++ E) /\ forall a b, s = a ++ E ++ b -> b = [].

(** White space of at least one character. *)
Definition blank (ws : text) : bool :=
  match ws with
  | [] => false
  | _ => forallb Re.space ws
  end.


(** Bits 32 to 127 of a UUID integer: the part [generate_uuid] shows. *)
Definition shown_bits (u : Z) : Z := Z.land (Z.shiftr u 32) (Z.ones 96).

(** The digit of [UUID.hex] at offset [i], as a number. *)
Definition nibble (u : Z) (i : nat) : Z :=
  Z.land (Z.shiftr u (4 * (31 - Z.of_nat i))) 15.

(** The value of an upper-case hexadecimal digit. *)
Definition digit_value (c : ascii) : Z :=
  let n := Z.of_nat (nat_of_ascii c) in
  if n <? 58 then n - 48 else n - 55.

End Run.

Module AutoRun.
Import Sys AddFilesAuto Run.

(** The paths of [fl] that [fs] does not hold. *)
Definition missing_of (fs : gmap string text) (fl : list string) : list string :=
  List.filter (fun p => negb (bool_decide (is_Some (fs !! p)))) fl.

(** The entries drawn for [fl] when the next draw is number [i]. *)
Fixpoint entries_of (rnd : nat -> Z) (i : nat) (fl : list string) : list entry :=
  match fl with
  | [] => []
  | p :: fl' =>
      {| filepath := p; filename := Py.basename (lit p);
         file_ref_uuid := Uuid.generate_uuid (rnd i);
         build_file_uuid := Uuid.generate_uuid (rnd (S i)) |}
      :: entries_of rnd (S (S i)) fl'
  end.

Definition backup_of (p : string) : string := (p +:+ ".backup")%string.

(** The four ways a run of the script can go. *)
Inductive main_outcome (pbx : string) (fl : list string) (w : world)
  : result unit * world -> Prop :=
| Missing (m : string) (ms : list string) :
    missing_of (files w) fl = m :: ms ->
    main_outcome pbx fl w
      (Exit 1,
       notes (map Exists fl
              ++ map (fun f => Print (lit "  - " ++ lit f)) (m :: ms)) w)
| NoManifest :
    missing_of (files w) fl = [] ->
    files w !! pbx = None ->
    main_outcome pbx fl w (Raise "FileNotFoundError", notes (map Exists fl) w)
| Rejected (c msg : text) :
    missing_of (files w) fl = [] ->
    files w !! pbx = Some c ->
    patch (entries_of (random w) (drawn w) fl) c = inl msg ->
    main_outcome pbx fl w
      (Exit 1,
       {| files := <[pbx := c]> (<[backup_of pbx := c]> (files w));
          log := log w ++ map Exists fl
                 ++ [Copy pbx (backup_of pbx) c; Read pbx; Print msg;
                     Copy (backup_of pbx) pbx c];
          random := random w;
          drawn := (2 * length fl + drawn w)%nat |})
| Committed (c c' : text) :
    missing_of (files w) fl = [] ->
    files w !! pbx = Some c ->
    patch (entries_of (random w) (drawn w) fl) c = inr c' ->
    main_outcome pbx fl w
      (Done tt,
       {| files := <[pbx := c']> (<[pbx := []]> (<[backup_of pbx := c]> (files w)));
          log := log w ++ map Exists fl
                 ++ [Copy pbx (backup_of pbx) c; Read pbx; Truncate pbx;
                     Write pbx c'];
          random := random w;
          drawn := (2 * length fl + drawn w)%nat |}).

(** The identifiers of a list of entries, in the order of allocation. *)
Definition allocated (es : list entry) : list text :=
  flat_map (fun e => [file_ref_uuid e; build_file_uuid e]) es.

(** The three blocks of [add_files_to_pbxproj] that splice lines in. *)
Inductive block := BuildFiles | FileRefs | SourceRefs.

Definition run_block (b : block) : list entry -> text -> text + text :=
  match b with
  | BuildFiles => add_build_files
  | FileRefs => add_file_refs
  | SourceRefs => add_source_refs
  end.

(** Where the search for the end of the block starts. *)
Definition start_of (b : block) (c : text) : Z :=
  match b with
  | BuildFiles => Py.find c (lit "/* Begin PBXBuildFile section */") 0
  | FileRefs => Py.find c (lit "/* Begin PBXFileReference section */") 0
  | SourceRefs =>
      Py.find c (lit "files = (")
              (Py.find c (lit "/* Begin PBXSourcesBuildPhase section */") 0)
  end.

(** The opening landmarks of the block are found. *)
Definition begin_found (b : block) (c : text) : bool :=
  match b with
  | BuildFiles => negb (Py.find c (lit "/* Begin PBXBuildFile section */") 0 =? -1)
  | FileRefs => negb (Py.find c (lit "/* Begin PBXFileReference section */") 0 =? -1)
  | SourceRefs =>
      negb (Py.find c (lit "/* Begin PBXSourcesBuildPhase section */") 0 =? -1)
      && negb (start_of SourceRefs c =? -1)
  end.

(** The text that closes the block. *)
Definition end_marker (b : block) : text :=
  match b with
  | BuildFiles => lit "/* End PBXBuildFile section */"
  | FileRefs => lit "/* End PBXFileReference section */"
  | SourceRefs => lit ");"
  end.

(** The lines the block adds. *)
Definition lines (b : block) (es : list entry) : text :=
  match b with
  | BuildFiles => concat (map build_file_entry es)
  | FileRefs => concat (map file_ref_entry es)
  | SourceRefs => concat (map source_ref_entry es)
  end.

(** The opening landmarks of the block stand in [pre]. *)
Definition begin_in (b : block) (pre : text) : Prop :=
  match b with
  | BuildFiles => occurs (lit "/* Begin PBXBuildFile section */") pre
  | FileRefs => occurs (lit "/* Begin PBXFileReference section */") pre
  | SourceRefs =>
      exists p0 p1 p2,
        pre = p0 ++ lit "/* Begin PBXSourcesBuildPhase section */" ++ p1
              ++ lit "files = (" ++ p2
  end.

End AutoRun.

Module V2Run.
Import Sys AddToXcodeV2 Run.

Definition backup2_of (p : string) : string := (p +:+ ".backup2")%string.

(** The group identifiers and the [file_data] a run draws when its
    first draw is number [i]. *)
Definition groups_of (rnd : nat -> Z) (i : nat) : group_ids :=
  {| core_group_uuid := Uuid.generate_uuid (rnd i);
     core_mcp_group_uuid := Uuid.generate_uuid (rnd (1 + i)%nat);
     ui_prefs_mcp_group_uuid := Uuid.generate_uuid (rnd (2 + i)%nat) |}.

Definition info_of (rnd : nat -> Z) (i : nat) (p : string) (g : option text)
  : file_info :=
  {| path := lit p; group_uuid := g;
     file_ref_uuid := Uuid.generate_uuid (rnd i);
     build_file_uuid := Uuid.generate_uuid (rnd (1 + i)%nat) |}.

Definition file_data_of (rnd : nat -> Z) (i : nat) : file_data :=
  let g := groups_of rnd i in
  {| MCPServerConfig :=
       info_of rnd (3 + i) "Core/MCP/MCPServerConfig.swift"
               (Some (core_mcp_group_uuid g));
     MCPManager :=
       info_of rnd (5 + i) "Core/MCP/MCPManager.swift"
               (Some (core_mcp_group_uuid g));
     AddMCPAgentSheet :=
       info_of rnd (7 + i) "UI/Preferences/MCP/AddMCPAgentSheet.swift"
               (Some (ui_prefs_mcp_group_uuid g));
     MCPSettingsView :=
       info_of rnd (9 + i) "UI/Preferences/MCP/MCPSettingsView.swift"
               (Some (ui_prefs_mcp_group_uuid g));
     MCPAgentSelector :=
       info_of rnd (11 + i) "UI/Chat/MCPAgentSelector.swift" None |}.

(** The three ways a run of the script can go. *)
Inductive v2_outcome (pbx : string) (w : world) : result unit * world -> Prop :=
| V2NoManifest :
    files w !! pbx = None ->
    v2_outcome pbx w (Raise "FileNotFoundError", notes [Read pbx] w)
| V2Rejected (c msg : text) :
    files w !! pbx = Some c ->
    patch (groups_of (random w) (drawn w)) (file_data_of (random w) (drawn w)) c
    = inl msg ->
    v2_outcome pbx w
      (Exit 1,
       {| files := <[backup2_of pbx := c]> (files w);
          log := log w ++ [Read pbx; Copy pbx (backup2_of pbx) c; Print msg];
          random := random w;
          drawn := (13 + drawn w)%nat |})
| V2Committed (c c' : text) :
    files w !! pbx = Some c ->
    patch (groups_of (random w) (drawn w)) (file_data_of (random w) (drawn w)) c
    = inr c' ->
    v2_outcome pbx w
      (Done tt,
       {| files := <[pbx := c']> (<[pbx := []]> (<[backup2_of pbx := c]> (files w)));
          log := log w ++ [Read pbx; Copy pbx (backup2_of pbx) c; Truncate pbx;
                           Write pbx c'];
          random := random w;
          drawn := (13 + drawn w)%nat |}).

(** The three group records of step 4, as one text. *)
Definition new_groups (g : group_ids) (d : file_data) : text :=
  core_group g ++ core_mcp_group g d ++ ui_prefs_mcp_group g d.











(** The head of a group record as the patterns of steps 5 to 7 want
    it: identifier, name, and on the next two lines [isa] and the opening
    of the children list, each after the white space [ws1] and [ws2]. *)
Definition group_open (uuid : text) (name : string) (ws1 ws2 : text) : text :=
  (uuid ++ lit " /* " ++ lit name ++ lit " */ = {")
  ++ [NL] ++ ws1 ++ lit "isa = PBXGroup;" ++ [NL] ++ ws2 ++ lit "children = (".

(** Steps 1 to 3 of the script, by the block they correspond to. *)
Definition v2_block (b : AutoRun.block) : file_data -> text -> text :=
  match b with
  | AutoRun.BuildFiles => step1
  | AutoRun.FileRefs => step2
  | AutoRun.SourceRefs => step3
  end.

Definition v2_lines (b : AutoRun.block) (d : file_data) : text :=
  match b with
  | AutoRun.BuildFiles =>
      concat (map (fun '(filename, data) => build_file_entry filename data) (items d))
  | AutoRun.FileRefs =>
      concat (map (fun '(filename, data) => file_ref_entry filename data) (items d))
  | AutoRun.SourceRefs =>
      concat (map (fun '(filename, data) => source_ref_entry filename data) (items d))
  end.

End V2Run.

Module FixRun.
Import FixFilePaths.




End FixRun.

Module OverrideRun.
Import FixOverrides.

(** [t] is [s] without the keyword [override] and the white space
    behind it, at some places where white space stands in front of the
    keyword and [func], white space and the method name follow it and
    end at a word boundary; nothing else is changed. *)
Inductive keyword_removed (method : text) : text -> text -> Prop :=
| kr_nil : keyword_removed method [] []
| kr_keep (c : ascii) (s t : text) :
    keyword_removed method s t -> keyword_removed method (c :: s) (c :: t)
| kr_drop (ws1 ws2 ws3 s t : text) :
    Run.blank ws1 = true -> Run.blank ws2 = true -> Run.blank ws3 = true ->
    boundary (before_boundary method) s = Some tt ->
    keyword_removed method s t ->
    keyword_removed method
      (ws1 ++ lit "override" ++ ws2 ++ lit "func" ++ ws3 ++ method ++ s)
      (ws1 ++ lit "func" ++ ws3 ++ method ++ t).

(** The same, method after method of a list. *)
Inductive keywords_removed : list text -> text -> text -> Prop :=
| ks_nil (s : text) : keywords_removed [] s s
| ks_cons (method : text) (ms : list text) (s t u : text) :
    keyword_removed method s t -> keywords_removed ms t u ->
    keywords_removed (method :: ms) s u.

(** The last character of [s] is white space. *)
Definition ends_in_space (s : text) : bool :=
  match last s with
  | Some c => Re.space c
  | None => false
  end.

(** The first character of [s] is a word character. *)
Definition starts_with_word (s : text) : bool :=
  match s with
  | c :: _ => word c
  | [] => false
  end.

End OverrideRun.

(** * Sample inputs *)
Module Demo.

Definition pbx : string := "project.pbxproj".
Definition source : string := "Warden/Core/MCP/MCPManager.swift".

(** Draws that differ in their leading digits; the version and variant
    digits are those of a version-4 UUID. *)
Definition rnd (n : nat) : Z :=
  (Z.of_nat n + 1) * 2 ^ 100 + 4 * 2 ^ 76 + 8 * 2 ^ 60 + 12345.

(** A source of randomness that draws the same UUID again and again. *)
Definition stuck (n : nat) : Z := 0xAAAAAAAAAAAA4AAA8AAAAAAA00000000.

Definition group_stub (uuid name : string) : text :=
  [TAB; TAB] ++ lit uuid ++ lit " /* " ++ lit name ++ lit " */ = {"
  ++ [NL; TAB; TAB; TAB] ++ lit "isa = PBXGroup;"
  ++ [NL; TAB; TAB; TAB] ++ lit "children = ("
  ++ [NL; TAB; TAB; TAB] ++ lit ");"
  ++ [NL; TAB; TAB] ++ lit "};" ++ [NL].

Definition groups : text :=
  group_stub "AAAAAAAAAAAA4AAA8AAAAAAA" "Warden"
  ++ group_stub "BBBBBBBBBBBBBBBBBBBBBBBB" "Preferences"
  ++ group_stub "CCCCCCCCCCCCCCCCCCCCCCCC" "Chat".

(** A small manifest with every section the scripts look for. *)
Definition manifest : text :=
  lit "// !$*UTF8*$!" ++ [NL]
  ++ lit "/* Begin PBXBuildFile section */" ++ [NL]
  ++ lit "/* End PBXBuildFile section */" ++ [NL]
  ++ lit "/* Begin PBXFileReference section */" ++ [NL]
  ++ lit "/* End PBXFileReference section */" ++ [NL]
  ++ lit "/* Begin PBXGroup section */" ++ [NL]
  ++ groups
  ++ lit "/* End PBXGroup section */" ++ [NL]
  ++ lit "/* Begin PBXSourcesBuildPhase section */" ++ [NL]
  ++ [TAB; TAB; TAB] ++ lit "files = (" ++ [NL; TAB; TAB; TAB] ++ lit ");" ++ [NL]
  ++ lit "/* End PBXSourcesBuildPhase section */" ++ [NL].



(** The manifest without the line that ends the build-file section. *)
Definition open_manifest : text :=
  lit "// !$*UTF8*$!" ++ [NL]
  ++ lit "/* Begin PBXBuildFile section */" ++ [NL]
  ++ lit "/* Begin PBXFileReference section */" ++ [NL]
  ++ lit "/* End PBXFileReference section */" ++ [NL]
  ++ lit "/* Begin PBXSourcesBuildPhase section */" ++ [NL]
  ++ [TAB; TAB; TAB] ++ lit "files = (" ++ [NL; TAB; TAB; TAB] ++ lit ");" ++ [NL]
  ++ lit "/* End PBXSourcesBuildPhase section */" ++ [NL]
  ++ lit "}" ++ [NL].

(** What the scripts draw from [rnd] when they start at its first
    draw. *)
Definition entries : list AddFilesAuto.entry := AutoRun.entries_of rnd 0 [source].
Definition data : AddToXcodeV2.file_data := V2Run.file_data_of rnd 0.

(** A file reference whose [path] field comes right after [isa]. *)
Definition short_record : text :=
  [TAB; TAB] ++ lit "0000001000004000800000AB /* MCPManager.swift */ = "
  ++ lit "{isa = PBXFileReference; path = MCPManager.swift; sourceTree = "
  ++ [DQUOTE] ++ lit "<group>" ++ [DQUOTE] ++ lit "; };" ++ [NL].

Definition short_record_fixed : text :=
  [TAB; TAB] ++ lit "0000001000004000800000AB /* MCPManager.swift */ = "
  ++ lit "{isa = PBXFileReference; path = Core/MCP/MCPManager.swift; sourceTree = "
  ++ [DQUOTE] ++ lit "<group>" ++ [DQUOTE] ++ lit "; };" ++ [NL].


(** The sample manifest up to the end of its build-file section, and
    what follows. *)
Definition manifest_head : text :=
  lit "// !$*UTF8*$!" ++ [NL]
  ++ lit "/* Begin PBXBuildFile section */" ++ [NL].

Definition manifest_tail : text :=
  [NL]
  ++ lit "/* Begin PBXFileReference section */" ++ [NL]
  ++ lit "/* End PBXFileReference section */" ++ [NL]
  ++ lit "/* Begin PBXGroup section */" ++ [NL]
  ++ groups
  ++ lit "/* End PBXGroup section */" ++ [NL]
  ++ lit "/* Begin PBXSourcesBuildPhase section */" ++ [NL]
  ++ [TAB; TAB; TAB] ++ lit "files = (" ++ [NL; TAB; TAB; TAB] ++ lit ");" ++ [NL]
  ++ lit "/* End PBXSourcesBuildPhase section */" ++ [NL].

(** The sample manifest up to the end of its group section, and what
    follows. *)
Definition groups_head : text :=
  lit "// !$*UTF8*$!" ++ [NL]
  ++ lit "/* Begin PBXBuildFile section */" ++ [NL]
  ++ lit "/* End PBXBuildFile section */" ++ [NL]
  ++ lit "/* Begin PBXFileReference section */" ++ [NL]
  ++ lit "/* End PBXFileReference section */" ++ [NL]
  ++ lit "/* Begin PBXGroup section */" ++ [NL]
  ++ groups.

Definition groups_tail : text :=
  [NL]
  ++ lit "/* Begin PBXSourcesBuildPhase section */" ++ [NL]
  ++ [TAB; TAB; TAB] ++ lit "files = (" ++ [NL; TAB; TAB; TAB] ++ lit ");" ++ [NL]
  ++ lit "/* End PBXSourcesBuildPhase section */" ++ [NL].

(** A machine that holds the manifest and one source file. *)
Definition world0 : Sys.world :=
  Sys.start (<[pbx := manifest]> (<[source := lit "import Foundation"]> ∅)) rnd.


(** The same machine with the manifest whose build-file section has no
    end. *)
Definition world_open : Sys.world :=
  Sys.start (<[pbx := open_manifest]> (<[source := lit "import Foundation"]> ∅)) rnd.

(** The first machine with the stuck source of randomness. *)
Definition world_stuck : Sys.world :=
  Sys.start (<[pbx := manifest]> (<[source := lit "import Foundation"]> ∅)) stuck.

(** A machine without the source file. *)
Definition world_bare : Sys.world :=
  Sys.start (<[pbx := manifest]> ∅) rnd.



End Demo.

(** * Facts about the primitives *)
Section PyFacts.


Lemma startswith_spec (sub s : text) :
  Py.startswith sub s = true <-> exists b, s = sub ++ b.
Proof.
  revert s. induction sub as [|a sub IH]; intros s; simpl.
  - split; [intros _; by exists s | done].
  - destruct s as [|b s].
    + split; [done | intros [r Hr]; discriminate].
    + destruct (Ascii.eqb_spec a b) as [->|Hne].
      * rewrite IH. split; intros [r Hr]; exists r; simpl in *; congruence.
      * split; [done | intros [r Hr]; simpl in Hr; congruence].
Qed.

Lemma find_nat_None (sub s : text) :
  Py.find_nat sub s = None <-> ~ occurs sub s.
Proof.
  induction s as [|c s IH]; simpl.
  - destruct (Py.startswith sub []) eqn:E.
    + split; [done | intros H; exfalso; apply H].
      apply startswith_spec in E as [b Hb]. by exists [], b.
    + split; [intros _ (a & b & Hab) | done].
      destruct a; [|done]. simpl in Hab.
      assert (Py.startswith sub [] = true) by (apply startswith_spec; eauto).
      congruence.
  - destruct (Py.startswith sub (c :: s)) eqn:E.
    + split; [done | intros H; exfalso; apply H].
      apply startswith_spec in E as [b Hb]. by exists [], b.
    + rewrite fmap_None, IH. split.
      * intros Hn (a & b & Hab). destruct a as [|x a]; simpl in Hab.
        -- assert (Py.startswith sub (c :: s) = true)
             by (apply startswith_spec; eauto).
           congruence.
        -- apply Hn. exists a, b. congruence.
      * intros Hn (a & b & Hab). apply Hn. exists (c :: a), b. by rewrite Hab.
Qed.

Lemma find_nat_Some (sub s : text) (i : nat) :
  Py.find_nat sub s = Some i ->
  exists b, drop i s = sub ++ b /\ (i <= length s)%nat.
Proof.
  revert i. induction s as [|c s IH]; intros i; simpl.
  - destruct (Py.startswith sub []) eqn:E; [|done].
    intros [= <-]. apply startswith_spec in E as [b Hb]. exists b. split; [done|lia].
  - destruct (Py.startswith sub (c :: s)) eqn:E.
    + intros [= <-]. apply startswith_spec in E as [b Hb].
      exists b. split; [done | simpl; lia].
    + destruct (Py.find_nat sub s) as [j|] eqn:F; [|done].
      intros [= <-]. destruct (IH j eq_refl) as (b & Hb & Hj).
      exists b. split; [done | simpl; lia].
Qed.



Lemma found_occurs (sub s : text) (i : nat) :
  Py.find_nat sub s = Some i -> occurs sub s.
Proof.
  intros F. destruct (find_nat_Some _ _ _ F) as (b & Hb & _).
  exists (take i s), b. by rewrite <- Hb, take_drop.
Qed.

End PyFacts.

(** * Facts about the matcher *)
Section ReFacts.







End ReFacts.

(** * Facts about the runs *)
Section SysFacts.
Import Sys Run.

Lemma string_length_app (s t : string) :
  String.length (s +:+ t) = (String.length s + String.length t)%nat.
Proof.
  induction s as [|a s IH]; [done|].
  change (String a s +:+ t)%string with (String a (s +:+ t)).
  simpl. by rewrite IH.
Qed.

(** A backup path is never the path it backs up. *)
Lemma suffixed_ne (p : string) (a : ascii) (t : string) : (p +:+ String a t)%string <> p.
Proof.
  intros H. apply (f_equal String.length) in H.
  rewrite string_length_app in H. simpl in H. lia.
Qed.

Lemma world_eq (w : world) :
  {| files := files w; log := log w; random := random w; drawn := drawn w |} = w.
Proof. by destruct w. Qed.

Lemma notes_nil (w : world) : notes [] w = w.
Proof. unfold notes. rewrite app_nil_r. apply world_eq. Qed.

Lemma advance_0 (w : world) : advance 0 w = w.
Proof. apply world_eq. Qed.

Lemma generate_uuid_run (w : world) :
  generate_uuid w = (Done (Uuid.generate_uuid (random w (drawn w))), advance 1 w).
Proof. done. Qed.

End SysFacts.

Section AddFilesAutoRuns.
Import Sys Run AddFilesAuto AutoRun.

Lemma missing_files_run (fl : list string) (w : world) :
  missing_files fl w = (Done (missing_of (files w) fl), notes (map Exists fl) w).
Proof.
  revert w. induction fl as [|p fl IH]; intros w; simpl.
  - unfold ret. by rewrite notes_nil.
  - unfold bind, path_exists. rewrite IH. simpl. unfold ret.
    f_equal.
    + f_equal. by destruct (bool_decide _).
    + unfold notes, note. simpl. by rewrite <- app_assoc.
Qed.

Lemma make_entries_run (fl : list string) (w : world) :
  make_entries fl w
  = (Done (entries_of (random w) (drawn w) fl), advance (2 * length fl) w).
Proof.
  revert w. induction fl as [|p fl IH]; intros w.
  - simpl. unfold ret. by rewrite advance_0.
  - cbn [make_entries]. unfold bind at 1. rewrite generate_uuid_run.
    unfold bind at 1. rewrite generate_uuid_run.
    unfold bind at 1. rewrite IH. unfold ret. simpl.
    f_equal. unfold advance. simpl. f_equal. lia.
Qed.

Lemma print_missing_run (ms : list string) (w : world) :
  print_missing ms w
  = (Done tt, notes (map (fun f => Print (lit "  - " ++ lit f)) ms) w).
Proof.
  revert w. induction ms as [|m ms IH]; intros w; simpl.
  - unfold ret. by rewrite notes_nil.
  - unfold bind, print. rewrite IH. f_equal.
    unfold notes, note. simpl. by rewrite <- app_assoc.
Qed.

Lemma main_run (pbx : string) (fl : list string) (w : world) :
  main_outcome pbx fl w (main pbx fl w).
Proof.
  assert (forall r r', r = r' -> main_outcome pbx fl w r -> main_outcome pbx fl w r')
    as Heq by (by intros ?? ->).
  unfold main. unfold bind at 1. rewrite missing_files_run.
  destruct (missing_of (files w) fl) as [|m ms] eqn:Hm.
  - fold (backup_of pbx). unfold bind at 1. unfold copy2 at 1. simpl.
    destruct (files w !! pbx) as [c|] eqn:Hc; [|by constructor].
    unfold bind at 1, add_files_to_pbxproj. unfold bind at 1, read. simpl.
    rewrite lookup_insert_ne by apply suffixed_ne. rewrite Hc.
    unfold bind at 1. rewrite make_entries_run. simpl.
    destruct (patch _ c) as [msg|c'] eqn:Hp.
    + eapply Heq; [|by apply (Rejected pbx fl w c msg)].
      unfold bind, print, ret, copy2, exit, note, store, advance, notes. simpl.
      rewrite lookup_insert_eq. by rewrite <- !app_assoc.
    + eapply Heq; [|by apply (Committed pbx fl w c c')].
      unfold bind, open_w, write, ret, note, store, advance, notes. simpl.
      by rewrite <- !app_assoc.
  - eapply Heq; [|by apply (Missing pbx fl w m ms)].
    unfold bind. rewrite print_missing_run. unfold exit, notes. simpl.
    by rewrite <- !app_assoc.
Qed.

End AddFilesAutoRuns.

Section AddToXcodeV2Runs.
Import Sys Run AddToXcodeV2 V2Run.

Lemma new_info_run (p : string) (g : option text) (w : world) :
  new_info p g w = (Done (info_of (random w) (drawn w) p g), advance 2 w).
Proof. done. Qed.

Lemma v2_run (pbx : string) (w : world) : v2_outcome pbx w (main pbx w).
Proof.
  assert (forall r r', r = r' -> v2_outcome pbx w r -> v2_outcome pbx w r')
    as Heq by (by intros ?? ->).
  unfold main. unfold bind at 1, read.
  destruct (files w !! pbx) as [c|] eqn:Hc; [|by constructor].
  fold (backup2_of pbx). unfold bind at 1, copy2. cbn [files note store]. rewrite Hc.
  do 3 (unfold bind at 1; rewrite generate_uuid_run).
  do 5 (unfold bind at 1; rewrite new_info_run).
  cbn [advance note store files log random drawn].
  change (patch _ _ c) with
    (patch (groups_of (random w) (drawn w)) (file_data_of (random w) (drawn w)) c).
  destruct (patch _ _ c) as [msg|c'] eqn:Hp.
  - eapply Heq; [|by apply (V2Rejected pbx w c msg)].
    unfold bind, print, exit, note. simpl. by rewrite <- !app_assoc.
  - eapply Heq; [|by apply (V2Committed pbx w c c')].
    unfold bind, open_w, write, ret, note, store. simpl. by rewrite <- !app_assoc.
Qed.

End AddToXcodeV2Runs.

(** * Patching only adds text *)
Section Additive.





End Additive.



(** * Failed runs *)
Section Failures.
Import Sys Run AutoRun V2Run.

Lemma events_since_app (w : world) (l es : list event) f r d :
  l = log w ->
  events_since w {| files := f; log := l ++ es; random := r; drawn := d |} = es.
Proof. intros ->. unfold events_since. simpl. by rewrite drop_app_length. Qed.

Lemma missing_of_In (fs : gmap string text) (fl : list string) (p : string) :
  In p (missing_of fs fl) <-> In p fl /\ fs !! p = None.
Proof.
  unfold missing_of. rewrite filter_In. split; intros [Hin H]; split; try done.
  - destruct (fs !! p) eqn:E; [|done].
    rewrite bool_decide_eq_true_2 in H by eauto. done.
  - rewrite H. rewrite bool_decide_eq_false_2; [done|]. by intros [? ?].
Qed.

End Failures.



(** C7, as the scripts have it.  When one of the source paths given to
    [add_files_auto.py] does not exist, the run stops at [exit(1)] after
    listing the missing paths; all it has done by then is to ask whether
    paths exist and to print, so the manifest was neither read, nor
    copied, nor written.  A run of [add_to_xcode_v2.py] never asks
    whether a path exists. *)
Theorem missing_source_stops_first (pbx : string) (fl : list string)
        (w : Sys.world) (p : string) :
  In p fl -> Sys.files w !! p = None ->
  exists w' : Sys.world,
    AddFilesAuto.main pbx fl w = (Sys.Exit 1, w')
    /\ Sys.files w' = Sys.files w
    /\ forallb Run.looks_only (Run.events_since w w') = true
    /\ In (Sys.Print (lit "  - " ++ lit p)) (Run.events_since w w')
    /\ forall (pbx0 : string) (w0 : Sys.world),
         forallb (fun e => negb (Run.asks_existence e))
                 (Run.events_since w0 (AddToXcodeV2.main pbx0 w0).2) = true.
Proof.
  intros Hin Hp.
  assert (forall (pbx0 : string) (w0 : Sys.world),
            forallb (fun e => negb (Run.asks_existence e))
                    (Run.events_since w0 (AddToXcodeV2.main pbx0 w0).2) = true)
    as Hv2.
  { intros pbx0 w0. pose proof (v2_run pbx0 w0) as Ho.
    destruct (AddToXcodeV2.main pbx0 w0) as [r0 w0'].
    inversion Ho; subst; cbn [snd]; unfold Run.notes;
      by rewrite events_since_app. }
  assert (In p (AutoRun.missing_of (Sys.files w) fl)) as Hmiss
    by (by apply missing_of_In).
  pose proof (main_run pbx fl w) as Ho.
  destruct (AddFilesAuto.main pbx fl w) as [r w'] eqn:E.
  inversion Ho as [m ms Hm|Hm Hc|c msg Hm Hc Hpa|c c' Hm Hc Hpa]; subst;
    try (rewrite Hm in Hmiss; by destruct Hmiss).
  eexists. split; [done|]. split; [done|].
  unfold Run.notes. rewrite events_since_app by done.
  rewrite Hm in Hmiss. split; [|split; [|done]].
  - rewrite forallb_app. apply andb_true_iff. split.
    + clear. by induction fl.
    + simpl. clear. by induction ms.
  - apply in_or_app. right.
    change (In (Sys.Print (lit "  - " ++ lit p))
               (map (fun f => Sys.Print (lit "  - " ++ lit f)) (m :: ms))).
    apply in_map_iff. by exists p.
Qed.

Lemma missing_source_stops_first_witness :
  exists w' : Sys.world,
    AddFilesAuto.main Demo.pbx [Demo.source] Demo.world_bare = (Sys.Exit 1, w')
    /\ Sys.files w' = Sys.files Demo.world_bare
    /\ forallb Run.looks_only (Run.events_since Demo.world_bare w') = true
    /\ In (Sys.Print (lit "  - " ++ lit Demo.source))
          (Run.events_since Demo.world_bare w').
Proof.
  destruct (missing_source_stops_first Demo.pbx [Demo.source] Demo.world_bare
                                       Demo.source)
    as (w' & H1 & H2 & H3 & H4 & _).
  - simpl. left. reflexivity.
  - vm_compute. reflexivity.
  - exists w'. exact (conj H1 (conj H2 (conj H3 H4))).
Defined.

(** C7, as the specification states it, fails for
    [add_to_xcode_v2.py]: on a machine that holds the manifest and no
    other file, so that none of the five source files of the script
    exists, the run reads the manifest, copies it, and writes a changed
    manifest back. *)
Lemma v2_checks_no_source_file :
  let out := AddToXcodeV2.main Demo.pbx Demo.world_bare in
  (forall p : string, p <> Demo.pbx -> Sys.files Demo.world_bare !! p = None)
  /\ out.1 = Sys.Done tt
  /\ In (Sys.Read Demo.pbx) (Sys.log out.2)
  /\ Sys.files out.2 !! Demo.pbx <> Sys.files Demo.world_bare !! Demo.pbx.
Proof.
  split.
  - intros p Hp. unfold Demo.world_bare, Sys.start. cbn [Sys.files].
    rewrite lookup_insert_ne by done. apply lookup_empty.
  - split; [vm_compute; reflexivity|].
    split; [vm_compute; tauto|]. vm_compute. discriminate.
Qed.

(** * What a reader of the manifest path can see *)
Section Observed.
Import Sys Run AutoRun V2Run.

Lemma observed_app (p : string) (c0 : option text) (l1 l2 : list event) :
  observed p c0 (l1 ++ l2)
  = observed p c0 l1 ++ observed p (foldl (touch p) c0 l1) l2.
Proof.
  revert c0. induction l1 as [|e l1 IH]; intros c0; [done|].
  simpl. by rewrite IH.
Qed.

(** Events that leave the content of [p] alone. *)
Lemma observed_untouched (p : string) (c0 : option text) (l : list event) :
  Forall (fun e => touch p c0 e = c0) l ->
  observed p c0 l = replicate (length l) c0 /\ foldl (touch p) c0 l = c0.
Proof.
  induction 1 as [|e l He _ [IH1 IH2]]; [done|]. simpl. by rewrite He, IH1, IH2.
Qed.

Lemma observed_commit (p : string) (c c' : text) (l : list event) :
  Forall (fun e => touch p (Some c) e = Some c) l ->
  observed p (Some c) (l ++ [Truncate p; Write p c'])
  = replicate (length l) (Some c) ++ [Some []; Some c'].
Proof.
  intros H. destruct (observed_untouched _ _ _ H) as [H1 H2].
  rewrite observed_app, H1, H2. simpl. by rewrite String.eqb_refl.
Qed.

End Observed.

(** C5, as the scripts have it.  A run of [add_files_auto.py] or
    [add_to_xcode_v2.py] that reaches its end finishes with two events on
    the manifest path itself: the path is opened for writing, which
    empties it, and then the patched text is written.  Nothing before
    these two events changes the content of the path.  A reader of the
    path therefore sees the old text, then an empty file, then the new
    text. *)
Theorem commit_writes_in_place (pbx : string) (fl : list string) (w w' : Sys.world) :
  AddFilesAuto.main pbx fl w = (Sys.Done tt, w')
  \/ AddToXcodeV2.main pbx w = (Sys.Done tt, w') ->
  exists (c c' : text) (before : list Sys.event),
    Sys.files w !! pbx = Some c
    /\ Run.events_since w w' = before ++ [Sys.Truncate pbx; Sys.Write pbx c']
    /\ Sys.observed pbx (Some c) (Run.events_since w w')
       = replicate (length before) (Some c) ++ [Some []; Some c']
    /\ Sys.files w' !! pbx = Some c'.
Proof.
  intros [H|H].
  - pose proof (main_run pbx fl w) as Ho. rewrite H in Ho.
    inversion Ho as [ | | |c c' Hm Hc Hp]; subst.
    exists c, c',
      (map Sys.Exists fl ++ [Sys.Copy pbx (AutoRun.backup_of pbx) c; Sys.Read pbx]).
    rewrite events_since_app by done.
    split; [done|]. split; [by rewrite <- app_assoc|]. split.
    + replace (map Sys.Exists fl ++ _)
        with ((map Sys.Exists fl
               ++ [Sys.Copy pbx (AutoRun.backup_of pbx) c; Sys.Read pbx])
              ++ [Sys.Truncate pbx; Sys.Write pbx c'])
        by (by rewrite <- app_assoc).
      apply observed_commit. apply Forall_app. split.
      * clear. by induction fl; constructor.
      * repeat constructor. simpl.
        destruct (String.eqb_spec (AutoRun.backup_of pbx) pbx) as [E|]; [|done].
        by apply suffixed_ne in E.
    + simpl. apply lookup_insert_eq.
  - pose proof (v2_run pbx w) as Ho. rewrite H in Ho.
    inversion Ho as [ | |c c' Hc Hp]; subst.
    exists c, c', [Sys.Read pbx; Sys.Copy pbx (V2Run.backup2_of pbx) c].
    rewrite events_since_app by done.
    split; [done|]. split; [done|]. split.
    + apply (observed_commit pbx c c' [_; _]).
      repeat constructor. simpl.
      destruct (String.eqb_spec (V2Run.backup2_of pbx) pbx) as [E|]; [|done].
      by apply suffixed_ne in E.
    + simpl. apply lookup_insert_eq.
Qed.

Lemma commit_writes_in_place_witness :
  exists (c c' : text) (before : list Sys.event),
    Sys.files Demo.world0 !! Demo.pbx = Some c
    /\ Run.events_since Demo.world0
         (AddFilesAuto.main Demo.pbx [Demo.source] Demo.world0).2
       = before ++ [Sys.Truncate Demo.pbx; Sys.Write Demo.pbx c']
    /\ Sys.observed Demo.pbx (Some c)
         (Run.events_since Demo.world0
            (AddFilesAuto.main Demo.pbx [Demo.source] Demo.world0).2)
       = replicate (length before) (Some c) ++ [Some []; Some c']
    /\ Sys.files (AddFilesAuto.main Demo.pbx [Demo.source] Demo.world0).2
       !! Demo.pbx = Some c'.
Proof.
  apply (commit_writes_in_place Demo.pbx [Demo.source] Demo.world0).
  left. vm_compute. reflexivity.
Defined.

(** C5, as the specification states it, fails: if the commit were atomic, the
    manifest path would hold either the old or the new text after every
    event of a run.  In the run of [add_files_auto.py] on the sample
    manifest the path is seen empty, which is neither. *)
Lemma commit_shows_empty_manifest :
  let out := AddFilesAuto.main Demo.pbx [Demo.source] Demo.world0 in
  out.1 = Sys.Done tt
  /\ In (Some [])
        (Sys.observed Demo.pbx (Some Demo.manifest)
                      (Run.events_since Demo.world0 out.2))
  /\ Some [] <> Sys.files Demo.world0 !! Demo.pbx
  /\ Some [] <> Sys.files out.2 !! Demo.pbx.
Proof.
  vm_compute. repeat split; try discriminate.
  do 3 right. left. reflexivity.
Qed.

(** * Sections without an end *)
Section NoEnd.
Import Sys Run AutoRun V2Run.





End NoEnd.



(** C4, on a manifest whose build-file section has no end line: the
    text that should close the section occurs nowhere, yet the run of
    [add_files_auto.py] reaches its end as a success and leaves a
    different manifest, in which the new build-file line stands after
    the closing brace of the file. *)
Lemma missing_end_marker_is_not_reported :
  let out := AddFilesAuto.main Demo.pbx [Demo.source] Demo.world_open in
  ~ occurs (lit "/* End PBXBuildFile section */") Demo.open_manifest
  /\ out.1 = Sys.Done tt
  /\ Sys.files out.2 !! Demo.pbx <> Sys.files Demo.world_open !! Demo.pbx
  /\ exists c' : text,
       Sys.files out.2 !! Demo.pbx = Some c'
       /\ (lit "}" ++ concat (map AddFilesAuto.build_file_entry Demo.entries) ++ [NL])
          `suffix_of` c'.
Proof.
  split; [apply find_nat_None; vm_compute; reflexivity|].
  split; [vm_compute; reflexivity|].
  split; [vm_compute; discriminate|].
  eexists. split; [vm_compute; reflexivity|].
  match goal with
  | |- ?t `suffix_of` ?c => exists (take (length c - length t) c)
  end.
  vm_compute. reflexivity.
Qed.

(** * Identifiers *)
Section Identifiers.
Import Run.

Lemma generate_uuid_digits (u : Z) :
  Uuid.generate_uuid u
  = map (fun i => Py.upper (Uuid.hex_digit (nibble u i))) (seq 0 24).
Proof. reflexivity. Qed.

Lemma nibble_range (u : Z) (i : nat) : 0 <= nibble u i < 16.
Proof.
  unfold nibble. change 15 with (Z.ones 4). rewrite Z.land_ones by lia.
  apply Z.mod_pos_bound. lia.
Qed.

Lemma digit_value_upper (d : Z) :
  0 <= d < 16 -> digit_value (Py.upper (Uuid.hex_digit d)) = d.
Proof.
  intros H.
  assert (d = 0 \/ d = 1 \/ d = 2 \/ d = 3 \/ d = 4 \/ d = 5 \/ d = 6 \/ d = 7
          \/ d = 8 \/ d = 9 \/ d = 10 \/ d = 11 \/ d = 12 \/ d = 13 \/ d = 14
          \/ d = 15) as Hd by lia.
  repeat (destruct Hd as [->|Hd]; [reflexivity|]). by subst.
Qed.

Lemma upper_digit_is_hex (d : Z) :
  0 <= d < 16 -> Re.hex_upper (Py.upper (Uuid.hex_digit d)) = true.
Proof.
  intros H.
  assert (d = 0 \/ d = 1 \/ d = 2 \/ d = 3 \/ d = 4 \/ d = 5 \/ d = 6 \/ d = 7
          \/ d = 8 \/ d = 9 \/ d = 10 \/ d = 11 \/ d = 12 \/ d = 13 \/ d = 14
          \/ d = 15) as Hd by lia.
  repeat (destruct Hd as [->|Hd]; [reflexivity|]). by subst.
Qed.

Lemma shown_bits_spec (u : Z) (m : Z) :
  0 <= m -> Z.testbit (shown_bits u) m = Z.testbit u (m + 32) && (m <? 96).
Proof.
  intros Hm. unfold shown_bits.
  rewrite Z.land_spec, Z.shiftr_spec, Z.testbit_ones_nonneg by lia. done.
Qed.

Lemma nibble_spec (u : Z) (i : nat) (k : Z) :
  0 <= k ->
  Z.testbit (nibble u i) k = Z.testbit u (k + 4 * (31 - Z.of_nat i)) && (k <? 4).
Proof.
  intros Hk. unfold nibble. change 15 with (Z.ones 4).
  rewrite Z.land_spec, Z.shiftr_spec, Z.testbit_ones_nonneg by lia. done.
Qed.

(** The digits shown are those of [shown_bits]. *)
Lemma nibble_shown (u : Z) (i : nat) :
  (i < 24)%nat ->
  nibble u i = Z.land (Z.shiftr (shown_bits u) (4 * (23 - Z.of_nat i))) 15.
Proof.
  intros Hi. apply Z.bits_inj'. intros k Hk.
  rewrite nibble_spec by done. change 15 with (Z.ones 4).
  rewrite Z.land_spec, Z.shiftr_spec, Z.testbit_ones_nonneg by lia.
  rewrite shown_bits_spec by lia.
  destruct (Z.ltb_spec k 4) as [Hk4|Hk4]; [|by rewrite !andb_false_r].
  rewrite !andb_true_r.
  replace (k + 4 * (23 - Z.of_nat i) + 32) with (k + 4 * (31 - Z.of_nat i)) by lia.
  destruct (Z.ltb_spec (k + 4 * (23 - Z.of_nat i)) 96); [|lia].
  by rewrite andb_true_r.
Qed.

Lemma same_identifier_iff (u v : Z) :
  Uuid.generate_uuid u = Uuid.generate_uuid v <-> shown_bits u = shown_bits v.
Proof.
  rewrite !generate_uuid_digits, map_ext_in_iff. split.
  - intros H. apply Z.bits_inj'. intros m Hm.
    rewrite !shown_bits_spec by done.
    destruct (Z.ltb_spec m 96) as [Hlt|]; [|by rewrite !andb_false_r].
    rewrite !andb_true_r.
    set (i := Z.to_nat (23 - m / 4)).
    assert (0 <= m / 4 < 24) by (split; [apply Z.div_pos; lia|apply Z.div_lt_upper_bound; lia]).
    assert (nibble u i = nibble v i) as Hn.
    { rewrite <- (digit_value_upper (nibble u i)) by apply nibble_range.
      rewrite <- (digit_value_upper (nibble v i)) by apply nibble_range.
      f_equal. apply H. apply in_seq. subst i. lia. }
    apply (f_equal (fun x => Z.testbit x (m mod 4))) in Hn.
    pose proof (Z.mod_pos_bound m 4 ltac:(lia)) as Hmod.
    rewrite !nibble_spec in Hn by lia.
    destruct (Z.ltb_spec (m mod 4) 4); [|lia]. rewrite !andb_true_r in Hn.
    replace (m mod 4 + 4 * (31 - Z.of_nat i)) with (m + 32) in Hn; [done|].
    subst i. rewrite Z2Nat.id by lia.
    pose proof (Z.div_mod m 4 ltac:(lia)). lia.
  - intros H i Hi. apply in_seq in Hi.
    rewrite !nibble_shown by lia. by rewrite H.
Qed.

Lemma identifier_shape (u : Z) :
  length (Uuid.generate_uuid u) = 24%nat
  /\ forallb Re.hex_upper (Uuid.generate_uuid u) = true.
Proof.
  rewrite generate_uuid_digits. split; [done|].
  apply forallb_forall. intros c Hc. apply in_map_iff in Hc as (i & <- & _).
  apply upper_digit_is_hex, nibble_range.
Qed.

Lemma allocated_entries (rnd : nat -> Z) (i : nat) (fl : list string) :
  AutoRun.allocated (AutoRun.entries_of rnd i fl)
  = map (fun n => Uuid.generate_uuid (rnd n)) (seq i (2 * length fl)).
Proof.
  revert i. induction fl as [|p fl IH]; intros i; [done|].
  cbn [AutoRun.entries_of AutoRun.allocated flat_map length].
  fold (AutoRun.allocated (AutoRun.entries_of rnd (S (S i)) fl)).
  rewrite IH. replace (2 * S (length fl))%nat with (S (S (2 * length fl))) by lia.
  done.
Qed.

Lemma NoDup_map_iff {A B C} (f : A -> B) (g : A -> C) (l : list A) :
  (forall x y, f x = f y <-> g x = g y) ->
  NoDup (map f l) <-> NoDup (map g l).
Proof.
  intros Hfg. induction l as [|a l IH]; simpl.
  - split; constructor.
  - rewrite !NoDup_cons, IH.
    assert (f a ∈ map f l <-> g a ∈ map g l) as ->; [|done].
    rewrite !list_elem_of_In, !in_map_iff.
    split; intros (x & Hx & Hin); exists x; split; try done; by apply Hfg.
Qed.

End Identifiers.

(** C2, as the scripts have it.  An identifier is the 24 upper-case
    hexadecimal digits of bits 32 to 127 of the UUID drawn, and nothing
    else enters it: two allocations give the same identifier exactly when
    their draws agree on these bits.  The identifiers that one run of
    [add_files_auto.py] allocates are those of its successive draws, so
    they are pairwise distinct exactly when the draws are pairwise
    distinct on these bits.  Neither the manifest nor the identifiers
    allocated before are consulted. *)
Theorem identifiers_follow_the_draws (u v : Z) (rnd : nat -> Z) (i : nat)
        (fl : list string) :
  (Uuid.generate_uuid u = Uuid.generate_uuid v
   <-> Run.shown_bits u = Run.shown_bits v)
  /\ length (Uuid.generate_uuid u) = 24%nat
  /\ forallb Re.hex_upper (Uuid.generate_uuid u) = true
  /\ AutoRun.allocated (AutoRun.entries_of rnd i fl)
     = map (fun n => Uuid.generate_uuid (rnd n)) (seq i (2 * length fl))
  /\ (NoDup (AutoRun.allocated (AutoRun.entries_of rnd i fl))
      <-> NoDup (map (fun n => Run.shown_bits (rnd n)) (seq i (2 * length fl)))).
Proof.
  split; [apply same_identifier_iff|].
  split; [apply identifier_shape|]. split; [apply identifier_shape|].
  split; [apply allocated_entries|].
  rewrite allocated_entries. apply NoDup_map_iff.
  intros x y. apply same_identifier_iff.
Qed.

(** C2, as the specification states it, fails: when [uuid4()] draws the same UUID
    twice, the run on the sample manifest gives one file the same
    identifier for its file reference and for its build file, and this
    identifier already stands in the manifest the run has read. *)
Lemma allocator_repeats_identifiers :
  exists (e : AddFilesAuto.entry) (w' : Sys.world),
    Sys.files Demo.world_stuck !! Demo.pbx = Some Demo.manifest
    /\ AddFilesAuto.make_entries [Demo.source] Demo.world_stuck = (Sys.Done [e], w')
    /\ AddFilesAuto.file_ref_uuid e = lit "AAAAAAAAAAAA4AAA8AAAAAAA"
    /\ AddFilesAuto.build_file_uuid e = AddFilesAuto.file_ref_uuid e
    /\ occurs (AddFilesAuto.file_ref_uuid e) Demo.manifest
    /\ (AddFilesAuto.main Demo.pbx [Demo.source] Demo.world_stuck).1 = Sys.Done tt.
Proof.
  eexists. eexists.
  split; [vm_compute; reflexivity|].
  split; [vm_compute; reflexivity|].
  split; [vm_compute; reflexivity|].
  split; [vm_compute; reflexivity|].
  split; [|vm_compute; reflexivity].
  eapply found_occurs. vm_compute. reflexivity.
Qed.

(** * The path normalizer *)
Section Normalizer.
Import FixFilePaths FixRun.




End Normalizer.

(** C8, on the manifest that [add_files_auto.py] has just written for
    [MCPManager.swift]: the table of [fix_file_paths.py] names that
    file, the manifest holds its file reference in the form the first
    script renders, and yet the run of [fix_file_paths.py] writes the
    manifest back as it was, with the [path] field still the bare file
    name.  The pattern asks for a stretch without semicolon between
    [isa = PBXFileReference;] and [path = ]; the field
    [lastKnownFileType = sourcecode.swift;] in between ends with one.  A
    reference whose [path] field comes first is rewritten. *)
Lemma normalizer_misses_rendered_reference :
  let added := (AddFilesAuto.main Demo.pbx [Demo.source] Demo.world0).2 in
  let fixed := (FixFilePaths.main Demo.pbx FixFilePaths.file_fixes added).2 in
  In (lit "MCPManager.swift", lit "Core/MCP/MCPManager.swift") FixFilePaths.file_fixes
  /\ (exists (e : AddFilesAuto.entry) (c : text),
        Demo.entries = [e]
        /\ AddFilesAuto.filename e = lit "MCPManager.swift"
        /\ Sys.files added !! Demo.pbx = Some c
        /\ occurs (AddFilesAuto.file_ref_entry e) c
        /\ Sys.files fixed !! Demo.pbx = Some c)
  /\ FixFilePaths.fix_paths FixFilePaths.file_fixes Demo.short_record
     = Demo.short_record_fixed.
Proof.
  split; [vm_compute; tauto|]. split; [|vm_compute; reflexivity].
  eexists. eexists.
  split; [vm_compute; reflexivity|]. split; [vm_compute; reflexivity|].
  split; [vm_compute; reflexivity|]. split; [|vm_compute; reflexivity].
  eapply found_occurs. vm_compute. reflexivity.
Qed.



(** * When a second pass changes nothing *)
Section SecondPass.
Import FixFilePaths FixRun.





End SecondPass.




(** * A block of text that [re.sub] passes over *)
Section Blocks.
Import V2Run.


(** The text a match begins with, when the pattern begins with a
    literal. *)
Lemma literal_prefix {A} (l : text) (re : Re.regex) (k : text -> option A)
      (s : text) n a :
  Re.match_k (Re.literal l ++ re) k s = Some (n, a) -> exists s', s = l ++ s'.
Proof.
  revert s n a. induction l as [|c l IH]; intros s n a; simpl.
  - by exists s.
  - destruct s as [|x s]; [done|].
    destruct (Ascii.eqb_spec x c) as [->|]; [|done].
    destruct (Re.match_k _ k s) as [[n' a']|] eqn:E; simpl; [|done].
    intros _. destruct (IH _ _ _ E) as [s' ->]. by exists s'.
Qed.


Lemma match_k_plus {A} (p : ascii -> bool) (re : Re.regex) (k : text -> option A)
      (s : text) :
  Re.match_k (Re.Plus p :: re) k s
  = match s with
    | x :: r =>
        if p x
        then (fun '(n, (m, a)) => (S (n + m), a)) <$> Re.star p (Re.match_k re k) r
        else None
    | [] => None
    end.
Proof. done. Qed.



End Blocks.

(** * The new groups stay in one piece *)
Section Groups.
Import AddToXcodeV2 V2Run.












End Groups.

Section GroupsInRuns.
Import Sys Run AddToXcodeV2 V2Run.







End GroupsInRuns.




(** * More about the runs *)
Section RunsMore.
Import Sys Run AutoRun V2Run.




Lemma fix_run (pbx : string) (table : list (text * text)) (w : world) :
  FixFilePaths.main pbx table w
  = match files w !! pbx with
    | None => (Raise "FileNotFoundError", notes [Read pbx] w)
    | Some c =>
        (Done tt,
         {| files := <[pbx := FixFilePaths.fix_paths table c]>
                       (<[pbx := []]> (files w));
            log := log w ++ [Read pbx; Truncate pbx;
                             Write pbx (FixFilePaths.fix_paths table c)];
            random := random w; drawn := drawn w |})
    end.
Proof.
  unfold FixFilePaths.main, bind, read.
  destruct (files w !! pbx) as [c|]; [|done].
  unfold open_w, write, note, store. simpl. by rewrite <- !app_assoc.
Qed.

End RunsMore.





(** X3.  The only paths a run can change are the manifest path and the
    backup path of the script: [.backup] for [add_files_auto.py],
    [.backup2] for [add_to_xcode_v2.py], and none for
    [fix_file_paths.py], which keeps no copy of what it overwrites. *)
Theorem runs_change_no_other_file (pbx : string) (fl : list string)
        (table : list (text * text)) (w : Sys.world) (p : string) :
  p <> pbx ->
  (p <> AutoRun.backup_of pbx ->
   Sys.files (AddFilesAuto.main pbx fl w).2 !! p = Sys.files w !! p)
  /\ (p <> V2Run.backup2_of pbx ->
      Sys.files (AddToXcodeV2.main pbx w).2 !! p = Sys.files w !! p)
  /\ Sys.files (FixFilePaths.main pbx table w).2 !! p = Sys.files w !! p.
Proof.
  intros Hp. split; [|split].
  - intros Hb. pose proof (main_run pbx fl w) as Ho.
    destruct (AddFilesAuto.main pbx fl w) as [r w'].
    inversion Ho; subst; simpl; by rewrite ?lookup_insert_ne.
  - intros Hb. pose proof (v2_run pbx w) as Ho.
    destruct (AddToXcodeV2.main pbx w) as [r w'].
    inversion Ho; subst; simpl; by rewrite ?lookup_insert_ne.
  - rewrite fix_run. destruct (Sys.files w !! pbx); simpl; [|done].
    by rewrite !lookup_insert_ne.
Qed.

Lemma runs_change_no_other_file_witness :
  (Demo.source <> AutoRun.backup_of Demo.pbx ->
   Sys.files (AddFilesAuto.main Demo.pbx [Demo.source] Demo.world0).2 !! Demo.source
   = Sys.files Demo.world0 !! Demo.source)
  /\ (Demo.source <> V2Run.backup2_of Demo.pbx ->
      Sys.files (AddToXcodeV2.main Demo.pbx Demo.world0).2 !! Demo.source
      = Sys.files Demo.world0 !! Demo.source)
  /\ Sys.files (FixFilePaths.main Demo.pbx FixFilePaths.file_fixes Demo.world0).2
     !! Demo.source
     = Sys.files Demo.world0 !! Demo.source.
Proof.
  apply (runs_change_no_other_file Demo.pbx [Demo.source] FixFilePaths.file_fixes
                                   Demo.world0 Demo.source).
  discriminate.
Defined.

(** * What the blocks add *)
Section Accounting.
Import Sys Run AutoRun.




Lemma basename_acc_spec (acc p : text) :
  (Forall (fun c => c <> "/"%char) p /\ Py.basename_acc acc p = acc)
  \/ exists d r, p = d ++ "/"%char :: r
                 /\ Forall (fun c => c <> "/"%char) r
                 /\ Py.basename_acc acc p = r.
Proof.
  revert acc. induction p as [|c p IH]; intros acc; simpl.
  - left. by split.
  - destruct (Ascii.eqb_spec c "/") as [->|Hc].
    + right. destruct (IH p) as [[Hf ->]|(d & r & -> & Hr & ->)].
      * by exists [], p.
      * exists ("/"%char :: d), r. by split.
    + destruct (IH acc) as [[Hf ->]|(d & r & -> & Hr & ->)].
      * left. split; [by constructor|done].
      * right. exists (c :: d), r. by split.
Qed.

End Accounting.





(** X6.  The name a file gets in the manifest is the part of its path
    after the last slash: it holds no slash, the path ends with it, and
    what stands before it in the path is empty or ends with a slash. *)
Theorem names_are_last_segments (rnd : nat -> Z) (i : nat) (fl : list string)
        (e : AddFilesAuto.entry) :
  In e (AutoRun.entries_of rnd i fl) ->
  In (AddFilesAuto.filepath e) fl
  /\ Forall (fun c => c <> "/"%char) (AddFilesAuto.filename e)
  /\ exists d : text,
       lit (AddFilesAuto.filepath e) = d ++ AddFilesAuto.filename e
       /\ (d = [] \/ exists d', d = d' ++ ["/"%char]).
Proof.
  revert i. induction fl as [|p fl IH]; intros i; [done|].
  simpl. intros [<-|H].
  - split; [by left|]. simpl. unfold Py.basename.
    destruct (basename_acc_spec (lit p) (lit p)) as [[Hf ->]|(d & r & Hp & Hr & ->)].
    + split; [done|]. exists []. by split; [|left].
    + split; [done|]. exists (d ++ ["/"%char]).
      split; [by rewrite Hp at 1; rewrite <- app_assoc|right; by exists d].
  - destruct (IH _ H) as (H1 & H2). split; [by right|done].
Qed.

Lemma names_are_last_segments_witness :
  exists e : AddFilesAuto.entry,
    In (AddFilesAuto.filepath e) [Demo.source]
    /\ Forall (fun c => c <> "/"%char) (AddFilesAuto.filename e)
    /\ exists d : text,
         lit (AddFilesAuto.filepath e) = d ++ AddFilesAuto.filename e
         /\ (d = [] \/ exists d', d = d' ++ ["/"%char]).
Proof.
  eexists.
  apply (names_are_last_segments Demo.rnd 0 [Demo.source]).
  simpl. left. reflexivity.
Defined.

(** * Where [find] stops *)
Section Finding.
Import Sys Run AutoRun V2Run.

Lemma find_nat_first (sub s : text) (k : nat) :
  Py.startswith sub (drop k s) = true -> (k <= length s)%nat ->
  (forall j, (j < k)%nat -> Py.startswith sub (drop j s) = false) ->
  Py.find_nat sub s = Some k.
Proof.
  revert s. induction k as [|k IH]; intros s Hk Hl Hj.
  - rewrite drop_0 in Hk. destruct s; simpl in *; by rewrite Hk.
  - destruct s as [|c s]; [simpl in Hl; lia|].
    simpl. pose proof (Hj 0%nat ltac:(lia)) as H0. rewrite drop_0 in H0.
    rewrite H0. rewrite (IH s); [done|done|simpl in Hl; lia|].
    intros j Hlt. apply (Hj (S j)). lia.
Qed.

Lemma find_nat_least (sub s : text) (k : nat) :
  Py.find_nat sub s = Some k ->
  forall j, (j < k)%nat -> Py.startswith sub (drop j s) = false.
Proof.
  revert k. induction s as [|c s IH]; intros k; simpl.
  - destruct (Py.startswith sub []); [|done]. intros [= <-]. lia.
  - destruct (Py.startswith sub (c :: s)) eqn:E; [intros [= <-]; lia|].
    destruct (Py.find_nat sub s) as [k'|]; [|done]. intros [= <-].
    intros [|j] Hj; [done|]. simpl. apply (IH k'); [done|lia].
Qed.

Lemma find_nat_before (sub s : text) (o : nat) :
  Py.startswith sub (drop o s) = true -> (o <= length s)%nat ->
  exists k, Py.find_nat sub s = Some k /\ (k <= o)%nat.
Proof.
  revert s. induction o as [|o IH]; intros s Ho Hl.
  - rewrite drop_0 in Ho. exists 0%nat. destruct s; simpl in *; by rewrite Ho.
  - destruct s as [|c s]; [simpl in Hl; lia|]. simpl.
    destruct (Py.startswith sub (c :: s)); [exists 0%nat; split; [done|lia]|].
    destruct (IH s) as (k & -> & Hk); [done|simpl in Hl; lia|].
    exists (S k). split; [done|lia].
Qed.

(** [find] from [start] answers an offset between [start] and any
    offset at or after [start] where the text stands. *)
Lemma find_between (c sub : text) (start o : nat) :
  (start <= o)%nat -> (o <= length c)%nat ->
  Py.startswith sub (drop o c) = true ->
  exists k, Py.find c sub (Z.of_nat start) = Z.of_nat k
            /\ (start <= k)%nat /\ (k <= o)%nat.
Proof.
  intros Hs Ho Hsub. unfold Py.find, Py.len.
  destruct (Z.ltb_spec (Z.of_nat start) 0); [lia|].
  destruct (Z.ltb_spec (Z.of_nat (length c)) (Z.of_nat start)); [lia|].
  rewrite Nat2Z.id.
  destruct (find_nat_before sub (drop start c) (o - start)) as (k & -> & Hk).
  - rewrite drop_drop. by replace (start + (o - start))%nat with o by lia.
  - rewrite length_drop. lia.
  - exists (start + k)%nat. split; [lia|lia].
Qed.

Lemma startswith_app (sub rest : text) : Py.startswith sub (sub ++ rest) = true.
Proof. apply startswith_spec. by exists rest. Qed.

(** A check that decides [only_at_end]. *)
Lemma only_at_end_check (E pre : text) :
  E <> [] -> Py.find_nat E (pre ++ E) = Some (length pre) ->
  only_at_end E (pre ++ E).
Proof.
  intros HE Hf. split; [by exists pre|]. intros a b Hab.
  destruct (decide (length a < length pre)%nat) as [Hlt|Hge].
  - pose proof (find_nat_least _ _ _ Hf (length a) Hlt) as Hn.
    rewrite Hab, drop_app_length, startswith_app in Hn. done.
  - apply (f_equal length) in Hab. rewrite !length_app in Hab.
    destruct b; [done|]. simpl in Hab. lia.
Qed.

(** [find] from an offset in [pre] finds the text [E] that follows
    [pre] when [E] does not stand earlier. *)
Lemma find_first_occurrence (pre E post : text) (start : nat) :
  E <> [] -> only_at_end E (pre ++ E) -> (start <= length pre)%nat ->
  Py.find (pre ++ E ++ post) E (Z.of_nat start) = Z.of_nat (length pre).
Proof.
  intros HE [_ Hno] Hs. unfold Py.find, Py.len.
  destruct (Z.ltb_spec (Z.of_nat start) 0); [lia|].
  destruct (Z.ltb_spec (Z.of_nat (length (pre ++ E ++ post))) (Z.of_nat start))
    as [Hl|]; [rewrite length_app in Hl; lia|].
  rewrite Nat2Z.id.
  rewrite (find_nat_first E _ (length pre - start)).
  - lia.
  - rewrite drop_drop.
    replace (start + (length pre - start))%nat with (length pre) by lia.
    rewrite drop_app_length. apply startswith_app.
  - rewrite length_drop, length_app. lia.
  - intros j Hj. rewrite drop_drop.
    destruct (Py.startswith E (drop (start + j) (pre ++ E ++ post))) eqn:Hst; [|done].
    exfalso. apply startswith_spec in Hst as [r Hr].
    assert (start + j < length pre)%nat as Hlt by lia.
    rewrite drop_app_le in Hr by lia.
    set (a1 := drop (start + j) pre) in *.
    assert (a1 <> []) as Ha1.
    { intros Hn. apply (f_equal length) in Hn. subst a1.
      rewrite length_drop in Hn. simpl in Hn. lia. }
    assert (a1 ++ E = E ++ drop (length E) (a1 ++ E)) as Hsplit.
    { assert (take (length E) (a1 ++ E) = E) as Ht.
      { rewrite <- (take_app_le (a1 ++ E) post) by (rewrite length_app; lia).
        rewrite <- app_assoc, Hr. apply take_app_length. }
      rewrite <- (take_drop (length E) (a1 ++ E)) at 1. by rewrite Ht. }
    assert (drop (length E) (a1 ++ E) = []) as Hb.
    { apply (Hno (take (start + j) pre)).
      rewrite <- Hsplit. subst a1. by rewrite app_assoc, take_drop. }
    apply (f_equal length) in Hb. rewrite length_drop, length_app in Hb.
    destruct a1; [done|]. simpl in Hb. lia.
Qed.

End Finding.

(** * Sections with an end *)
Section WithEnd.
Import Sys Run AutoRun V2Run.

Lemma slices_at (pre rest : text) :
  Py.slice_to (pre ++ rest) (Z.of_nat (length pre)) = pre
  /\ Py.slice_from (pre ++ rest) (Z.of_nat (length pre)) = rest.
Proof.
  unfold Py.slice_to, Py.slice_from, Py.clamp, Py.len.
  destruct (Z.ltb_spec (Z.of_nat (length pre)) 0); [lia|].
  rewrite length_app.
  replace (Z.to_nat (Z.of_nat (length pre) `min` Z.of_nat (length pre + length rest)))
    with (length pre) by lia.
  by rewrite take_app_length, drop_app_length.
Qed.

Lemma find_in_prefix (pre rest M : text) (start : nat) (a b : text) :
  pre = a ++ M ++ b -> (start <= length a)%nat ->
  exists k, Py.find (pre ++ rest) M (Z.of_nat start) = Z.of_nat k
            /\ (start <= k)%nat /\ (k <= length a)%nat.
Proof.
  intros -> Hs. apply find_between; [done| |].
  - rewrite !length_app. lia.
  - rewrite <- !app_assoc, drop_app_length. apply startswith_app.
Qed.

(** With the opening landmarks in [pre], the search for the end of the
    block starts inside [pre]. *)
Lemma start_in_prefix (b : block) (pre rest : text) :
  begin_in b pre ->
  exists k, start_of b (pre ++ rest) = Z.of_nat k /\ (k <= length pre)%nat
            /\ begin_found b (pre ++ rest) = true.
Proof.
  destruct b; cbn [begin_in start_of begin_found].
  - intros (a & b' & Hp).
    destruct (find_in_prefix pre rest _ 0 a b' Hp ltac:(lia)) as (k & Hk & _ & Hle).
    change (Z.of_nat 0) with 0 in Hk.
    exists k. rewrite Hk. split; [done|]. split.
    + rewrite Hp, !length_app. lia.
    + by destruct (Z.eqb_spec (Z.of_nat k) (-1)); [lia|].
  - intros (a & b' & Hp).
    destruct (find_in_prefix pre rest _ 0 a b' Hp ltac:(lia)) as (k & Hk & _ & Hle).
    change (Z.of_nat 0) with 0 in Hk.
    exists k. rewrite Hk. split; [done|]. split.
    + rewrite Hp, !length_app. lia.
    + by destruct (Z.eqb_spec (Z.of_nat k) (-1)); [lia|].
  - intros (p0 & p1 & p2 & Hp).
    destruct (find_in_prefix pre rest _ 0 p0 _ Hp ltac:(lia)) as (k0 & Hk0 & _ & Hle0).
    change (Z.of_nat 0) with 0 in Hk0.
    destruct (find_in_prefix pre rest (lit "files = (") k0
                (p0 ++ lit "/* Begin PBXSourcesBuildPhase section */" ++ p1) p2)
      as (k1 & Hk1 & Hge & Hle1).
    { by rewrite Hp, <- !app_assoc. }
    { rewrite length_app. lia. }
    rewrite Hk0, Hk1.
    exists k1. split; [done|]. split.
    + rewrite Hp. rewrite !length_app in *. lia.
    + destruct (Z.eqb_spec (Z.of_nat k0) (-1)); [lia|].
      by destruct (Z.eqb_spec (Z.of_nat k1) (-1)); [lia|].
Qed.

Lemma end_marker_nonempty (b : block) : end_marker b <> [].
Proof. by destruct b. Qed.

End WithEnd.

(** X7.  When the opening landmarks of a block stand in the manifest and
    the text that closes the block follows them, standing nowhere
    earlier, the block puts its lines directly in front of that closing
    text and leaves everything else in place.  This holds for the three
    blocks of [add_files_auto.py] and for steps 1 to 3 of
    [add_to_xcode_v2.py]. *)
Theorem lines_go_before_the_end_marker
        (b : AutoRun.block) (es : list AddFilesAuto.entry)
        (d : AddToXcodeV2.file_data) (pre post : text) :
  AutoRun.begin_in b pre ->
  Run.only_at_end (AutoRun.end_marker b) (pre ++ AutoRun.end_marker b) ->
  AutoRun.run_block b es (pre ++ AutoRun.end_marker b ++ post)
  = inr (pre ++ AutoRun.lines b es ++ AutoRun.end_marker b ++ post)
  /\ V2Run.v2_block b d (pre ++ AutoRun.end_marker b ++ post)
     = pre ++ V2Run.v2_lines b d ++ AutoRun.end_marker b ++ post.
Proof.
  intros Hb He.
  destruct (start_in_prefix b pre (AutoRun.end_marker b ++ post) Hb)
    as (k & Hk & Hle & Hfound).
  pose proof (find_first_occurrence pre _ post k (end_marker_nonempty b) He Hle)
    as Hfind.
  destruct (slices_at pre (AutoRun.end_marker b ++ post)) as [Hto Hfrom].
  destruct b;
    cbn [AutoRun.run_block V2Run.v2_block AutoRun.lines V2Run.v2_lines
         AutoRun.end_marker AutoRun.start_of AutoRun.begin_found] in *;
    unfold AddFilesAuto.add_build_files, AddFilesAuto.add_file_refs,
      AddFilesAuto.add_source_refs, AddFilesAuto.splice,
      AddToXcodeV2.step1, AddToXcodeV2.step2, AddToXcodeV2.step3,
      AddToXcodeV2.splice; cbv zeta.
  - apply negb_true_iff in Hfound. rewrite Hfound, Hk, Hfind, Hto, Hfrom. done.
  - apply negb_true_iff in Hfound. rewrite Hfound, Hk, Hfind, Hto, Hfrom. done.
  - apply andb_true_iff in Hfound as [H1 H2].
    apply negb_true_iff in H1, H2. rewrite H1, H2, Hk, Hfind, Hto, Hfrom. done.
Qed.

Lemma lines_go_before_the_end_marker_witness :
  AutoRun.run_block AutoRun.BuildFiles Demo.entries
    (Demo.manifest_head ++ AutoRun.end_marker AutoRun.BuildFiles ++ Demo.manifest_tail)
  = inr (Demo.manifest_head ++ AutoRun.lines AutoRun.BuildFiles Demo.entries
         ++ AutoRun.end_marker AutoRun.BuildFiles ++ Demo.manifest_tail)
  /\ V2Run.v2_block AutoRun.BuildFiles Demo.data
       (Demo.manifest_head ++ AutoRun.end_marker AutoRun.BuildFiles
        ++ Demo.manifest_tail)
     = Demo.manifest_head ++ V2Run.v2_lines AutoRun.BuildFiles Demo.data
       ++ AutoRun.end_marker AutoRun.BuildFiles ++ Demo.manifest_tail.
Proof.
  apply (lines_go_before_the_end_marker AutoRun.BuildFiles Demo.entries Demo.data
                                        Demo.manifest_head Demo.manifest_tail).
  - eapply found_occurs. vm_compute. reflexivity.
  - apply only_at_end_check; [discriminate|]. vm_compute. reflexivity.
Defined.

(** X8.  When the group section of the manifest has its opening marker
    and its closing marker follows, standing nowhere earlier, step 4 of
    [add_to_xcode_v2.py] puts the three new group records directly in
    front of the closing marker. *)
Theorem groups_go_before_the_end_marker
        (g : AddToXcodeV2.group_ids) (d : AddToXcodeV2.file_data) (pre post : text) :
  occurs (lit "/* Begin PBXGroup section */") pre ->
  Run.only_at_end (lit "/* End PBXGroup section */")
                  (pre ++ lit "/* End PBXGroup section */") ->
  AddToXcodeV2.step4 g d (pre ++ lit "/* End PBXGroup section */" ++ post)
  = pre ++ V2Run.new_groups g d ++ lit "/* End PBXGroup section */" ++ post.
Proof.
  intros (a & b' & Hp) He.
  destruct (find_in_prefix pre (lit "/* End PBXGroup section */" ++ post) _ 0 a b' Hp
                           ltac:(lia)) as (k & Hk & _ & Hle).
  change (Z.of_nat 0) with 0 in Hk.
  assert (k <= length pre)%nat as Hle' by (rewrite Hp, !length_app; lia).
  pose proof (find_first_occurrence pre (lit "/* End PBXGroup section */") post k
                                    ltac:(discriminate) He Hle') as Hfind.
  destruct (slices_at pre (lit "/* End PBXGroup section */" ++ post)) as [Hto Hfrom].
  unfold AddToXcodeV2.step4, AddToXcodeV2.splice; cbv zeta.
  rewrite Hk, Hfind, Hto, Hfrom. unfold V2Run.new_groups. cbn [concat].
  by rewrite app_nil_r, <- !app_assoc.
Qed.

Lemma groups_go_before_the_end_marker_witness :
  AddToXcodeV2.step4 (V2Run.groups_of Demo.rnd 0) Demo.data
    (Demo.groups_head ++ lit "/* End PBXGroup section */" ++ Demo.groups_tail)
  = Demo.groups_head ++ V2Run.new_groups (V2Run.groups_of Demo.rnd 0) Demo.data
    ++ lit "/* End PBXGroup section */" ++ Demo.groups_tail.
Proof.
  apply (groups_go_before_the_end_marker (V2Run.groups_of Demo.rnd 0) Demo.data
                                         Demo.groups_head Demo.groups_tail).
  - eapply found_occurs. vm_compute. reflexivity.
  - apply only_at_end_check; [discriminate|]. vm_compute. reflexivity.
Defined.

(** * What the normalizer leaves alone *)
Section Frame.
Import FixFilePaths FixRun.





End Frame.


(** * Linking a group to its parent *)
Section Linking.
Import AddToXcodeV2 V2Run Run.

Lemma literal_match {A} (l : text) (re : Re.regex) (k : text -> option A) (t : text) :
  Re.match_k (Re.literal l ++ re) k (l ++ t)
  = (fun '(n, a) => ((length l + n)%nat, a)) <$> Re.match_k re k t.
Proof.
  induction l as [|c l IH]; simpl.
  - by destruct (Re.match_k re k t) as [[]|].
  - rewrite Ascii.eqb_refl, IH. by destruct (Re.match_k re k t) as [[]|].
Qed.

Lemma star_exact {A} (p : ascii -> bool) (k : text -> option A) (ws t : text) a :
  forallb p ws = true ->
  match t with [] => True | c :: _ => p c = false end ->
  k t = Some a ->
  Re.star p k (ws ++ t) = Some (length ws, a).
Proof.
  intros Hws Ht Hk. induction ws as [|x ws IH]; simpl.
  - destruct t as [|c t]; simpl; [by rewrite Hk|]. by rewrite Ht, Hk.
  - simpl in Hws. apply andb_true_iff in Hws as [-> Hws]. by rewrite IH.
Qed.

(** A line break and the white space after it, before a text that
    does not begin with white space. *)
Lemma break_exact {A} (re : Re.regex) (k : text -> option A) (ws t : text) n a :
  blank ws = true ->
  match t with [] => True | c :: _ => Re.space c = false end ->
  Re.match_k re k t = Some (n, a) ->
  Re.match_k ([Re.Chr NL; Re.Plus Re.space] ++ re) k (NL :: ws ++ t)
  = Some (S (length ws + n), a).
Proof.
  intros Hws Ht Hk. destruct ws as [|x ws]; [done|].
  simpl in Hws. apply andb_true_iff in Hws as [Hx Hws].
  change (Re.match_k ([Re.Chr NL; Re.Plus Re.space] ++ re) k (NL :: (x :: ws) ++ t))
    with (if Ascii.eqb NL NL
          then (fun '(n, a) => (S n, a))
                 <$> Re.match_k (Re.Plus Re.space :: re) k (x :: ws ++ t)
          else None).
  rewrite Ascii.eqb_refl, match_k_plus, Hx.
  by rewrite (star_exact _ _ ws t (n, a) Hws Ht Hk).
Qed.

(** The pattern matches a group head of the expected layout, all of
    it. *)
Lemma children_open_matches (u : text) (name : string) (ws1 ws2 post : text) :
  blank ws1 = true -> blank ws2 = true ->
  Re.match_at (children_open u name) (group_open u name ws1 ws2 ++ post)
  = Some (length (group_open u name ws1 ws2), 0%nat).
Proof.
  intros H1 H2. unfold Re.match_at, children_open, group_open. cbn [Re.grp Re.rest].
  set (L := u ++ lit " /* " ++ lit name ++ lit " */ = {").
  set (I := lit "isa = PBXGroup;"). set (C := lit "children = (").
  replace ((L ++ [NL] ++ ws1 ++ I ++ [NL] ++ ws2 ++ C) ++ post)
    with (L ++ NL :: ws1 ++ I ++ NL :: ws2 ++ C ++ post)
    by (rewrite <- !app_assoc; done).
  assert (Re.match_k (Re.literal C) (Re.match_k [] Re.accept) (C ++ post)
          = Some (length C, (0%nat, tt))) as E3.
  { rewrite <- (app_nil_r (Re.literal C)), literal_match.
    change (Re.match_k [] (Re.match_k [] Re.accept) post)
      with (Some (0%nat, (0%nat, tt))).
    cbn [fmap option_fmap option_map]. by rewrite Nat.add_0_r. }
  pose proof (break_exact _ _ ws2 (C ++ post) _ _ H2 ltac:(done) E3) as E2.
  assert (Re.match_k (Re.literal I ++ [Re.Chr NL; Re.Plus Re.space] ++ Re.literal C)
                     (Re.match_k [] Re.accept) (I ++ NL :: ws2 ++ C ++ post)
          = Some ((length I + S (length ws2 + length C))%nat, (0%nat, tt))) as E1.
  { rewrite literal_match, E2. done. }
  pose proof (break_exact _ _ ws1 (I ++ NL :: ws2 ++ C ++ post) _ _ H1 ltac:(done) E1)
    as E0.
  rewrite literal_match, E0. cbn [fmap option_fmap option_map]. f_equal. f_equal.
  rewrite !length_app. simpl. lia.
Qed.

(** A text standing only at the end of [pre ++ E] does not begin
    anywhere in [pre]. *)
Lemma no_earlier_start (E pre a b rest r : text) :
  only_at_end E (pre ++ E) -> pre = a ++ b -> b <> [] ->
  b ++ E ++ rest = E ++ r -> False.
Proof.
  intros [_ Ho] -> Hb H.
  assert (take (length E) (b ++ E) = E) as Ht.
  { apply (f_equal (take (length E))) in H.
    rewrite take_app_length in H. rewrite app_assoc in H.
    rewrite take_app_le in H by (rewrite length_app; lia). done. }
  specialize (Ho a (drop (length E) (b ++ E))).
  assert (length (drop (length E) (b ++ E)) = length b) as Hl.
  { rewrite length_drop, length_app. lia. }
  rewrite Ho in Hl.
  - destruct b; [done|]. simpl in Hl. lia.
  - rewrite <- app_assoc. f_equal. rewrite <- Ht at 2. by rewrite take_drop.
Qed.

(** Where no match begins, the substitution copies. *)
Lemma sub_go_passes (pat : Re.pattern) (after pre rest : text) :
  (forall a b, pre = a ++ b -> b <> [] -> Re.match_at pat (b ++ rest) = None) ->
  Re.sub_go pat after 0 (pre ++ rest) = pre ++ Re.sub_go pat after 0 rest.
Proof.
  induction pre as [|c pre IH]; intros H; [done|].
  cbn [app Re.sub_go].
  pose proof (H [] (c :: pre) eq_refl ltac:(done)) as Hn. cbn [app] in Hn.
  rewrite Hn. f_equal. apply IH. intros a b -> Hb. by apply (H (c :: a) b).
Qed.

(** The characters of a match are passed without a new search. *)
Lemma sub_go_skip (pat : Re.pattern) (after a b : text) :
  Re.sub_go pat after (length a) (a ++ b) = Re.sub_go pat after 0 b.
Proof. induction a as [|c a IH]; [done|]. simpl. apply IH. Qed.

(** X10.  Steps 5 to 7 of [add_to_xcode_v2.py] link a new group or file
    to its parent with a substitution on the head of the parent's
    record.  When that head has the layout the pattern wants, that is
    identifier and name, then [isa = PBXGroup;] and [children = (] each on
    a line of its own after some white space, and identifier and name do
    not stand earlier in the text, the text put in goes right after the
    opening of the children list: what is before and the head stay as
    they are, and the substitution goes on in what follows. *)
Theorem child_goes_after_the_opening
  (u : text) (name : string) (after pre ws1 ws2 post : text) :
  only_at_end (u ++ lit " /* " ++ lit name ++ lit " */ = {")
              (pre ++ u ++ lit " /* " ++ lit name ++ lit " */ = {") ->
  blank ws1 = true -> blank ws2 = true ->
  Re.sub (children_open u name) after (pre ++ group_open u name ws1 ws2 ++ post)
  = pre ++ group_open u name ws1 ws2 ++ after
    ++ Re.sub (children_open u name) after post.
Proof.
  intros Ho H1 H2. unfold Re.sub.
  rewrite sub_go_passes.
  - f_equal.
    pose proof (children_open_matches u name ws1 ws2 post H1 H2) as Hm.
    destruct (group_open u name ws1 ws2) as [|c g] eqn:Eg.
    { apply (f_equal length) in Eg.
      unfold group_open in Eg. rewrite !length_app in Eg. simpl in Eg. lia. }
    cbn [app] in Hm. cbn [app Re.sub_go]. rewrite Hm.
    cbn [length Nat.add take]. rewrite Nat.add_0_r, sub_go_skip, take_app_length.
    done.
  - intros a b -> Hb.
    destruct (Re.match_at _ _) as [nm|] eqn:E; [exfalso|done].
    unfold Re.match_at, children_open in E. cbn [Re.grp Re.rest] in E.
    destruct (Re.match_k _ _ _) as [[n' x]|] eqn:E'; [|done].
    apply literal_prefix in E' as [r Hr].
    unfold group_open in Hr. rewrite <- !app_assoc in Hr.
    eapply (no_earlier_start _ _ a b _ r Ho eq_refl Hb).
    rewrite <- !app_assoc. exact Hr.
Qed.

End Linking.

Lemma child_goes_after_the_opening_witness :
  AddToXcodeV2.step5 (V2Run.groups_of Demo.rnd 0) (lit "AAAAAAAAAAAA4AAA8AAAAAAA")
    ([TAB; TAB]
     ++ V2Run.group_open (lit "AAAAAAAAAAAA4AAA8AAAAAAA") "Warden"
                         [TAB; TAB; TAB] [TAB; TAB; TAB]
     ++ Demo.groups_tail)
  = [TAB; TAB]
    ++ V2Run.group_open (lit "AAAAAAAAAAAA4AAA8AAAAAAA") "Warden"
                        [TAB; TAB; TAB] [TAB; TAB; TAB]
    ++ AddToXcodeV2.child_after
         (AddToXcodeV2.core_group_uuid (V2Run.groups_of Demo.rnd 0)) (lit "Core")
    ++ AddToXcodeV2.step5 (V2Run.groups_of Demo.rnd 0)
         (lit "AAAAAAAAAAAA4AAA8AAAAAAA") Demo.groups_tail.
Proof.
  apply (child_goes_after_the_opening
           (lit "AAAAAAAAAAAA4AAA8AAAAAAA") "Warden"
           (AddToXcodeV2.child_after
              (AddToXcodeV2.core_group_uuid (V2Run.groups_of Demo.rnd 0)) (lit "Core"))
           [TAB; TAB] [TAB; TAB; TAB] [TAB; TAB; TAB] Demo.groups_tail).
  - apply only_at_end_check; [discriminate|]. vm_compute. reflexivity.
  - reflexivity.
  - reflexivity.
Defined.

(** * Taking the keyword away *)
Section Overrides.
Import FixOverrides OverrideRun Run.

Lemma nil_sound {A} (k : text -> option A) (t : text) n a :
  Re.match_k [] k t = Some (n, a) -> n = 0%nat /\ k t = Some a.
Proof. simpl. destruct (k t); simpl; [|done]. by intros [= <- <-]. Qed.

Lemma literal_sound {A} (l : text) (re : Re.regex) (k : text -> option A)
      (s : text) n a :
  Re.match_k (Re.literal l ++ re) k s = Some (n, a) ->
  exists t n', s = l ++ t /\ n = (length l + n')%nat
               /\ Re.match_k re k t = Some (n', a).
Proof.
  revert s n. induction l as [|c l IH]; intros s n; simpl.
  - intros H. by exists s, n.
  - destruct s as [|x s]; [done|].
    destruct (Ascii.eqb_spec x c) as [->|]; [|done].
    destruct (Re.match_k _ k s) as [[n' a']|] eqn:E; simpl; [|done].
    intros [= <- <-]. apply IH in E as (t & n2 & -> & -> & E).
    by exists t, n2.
Qed.

Lemma star_sound_all {A} (p : ascii -> bool) (k : text -> option A) (s : text) n a :
  Re.star p k s = Some (n, a) ->
  exists ws t, s = ws ++ t /\ n = length ws /\ forallb p ws = true /\ k t = Some a.
Proof.
  revert n a. induction s as [|c s IH]; intros n a; simpl.
  - destruct (k []) eqn:E; simpl; [|done]. intros [= <- <-]. by exists [], [].
  - destruct (p c) eqn:Hp.
    + destruct (Re.star p k s) as [[n' a']|] eqn:E.
      * intros [= <- <-]. destruct (IH _ _ eq_refl) as (ws & t & -> & -> & Hws & Hk).
        exists (c :: ws), t. simpl. by rewrite Hp, Hws.
      * destruct (k (c :: s)) eqn:Ek; simpl; [|done]. intros [= <- <-].
        by exists [], (c :: s).
    + destruct (k (c :: s)) eqn:Ek; simpl; [|done]. intros [= <- <-].
      by exists [], (c :: s).
Qed.

Lemma plus_sound {A} (re : Re.regex) (k : text -> option A) (s : text) n a :
  Re.match_k (Re.Plus Re.space :: re) k s = Some (n, a) ->
  exists ws t m, s = ws ++ t /\ blank ws = true /\ n = (length ws + m)%nat
                 /\ Re.match_k re k t = Some (m, a).
Proof.
  rewrite match_k_plus. destruct s as [|x s]; [done|].
  destruct (Re.space x) eqn:Hx; [|done].
  destruct (Re.star _ _ s) as [[j [m a']]|] eqn:E; simpl; [|done].
  intros [= <- <-]. apply star_sound_all in E as (ws & t & -> & -> & Hws & Hk).
  exists (x :: ws), t, m. simpl. by rewrite Hx, Hws.
Qed.

(** What a match of the pattern has matched. *)
Lemma match_at_sound (method s : text) (n1 n2 n3 : nat) :
  match_at method s = Some (n1, (n2, n3)) ->
  exists ws1 ws2 ws3 rest,
    s = ws1 ++ lit "override" ++ ws2 ++ lit "func" ++ ws3 ++ method ++ rest
    /\ blank ws1 = true /\ blank ws2 = true /\ blank ws3 = true
    /\ boundary (before_boundary method) rest = Some tt
    /\ n1 = length ws1
    /\ n2 = length (lit "override" ++ ws2)
    /\ n3 = length (lit "func" ++ ws3 ++ method).
Proof.
  unfold match_at, group1, keyword, group2.
  destruct (Re.match_k _ _ s) as [[m1 [m2 [m3 []]]]|] eqn:E; simpl; [|done].
  intros [= <- <- <-].
  apply plus_sound in E as (ws1 & t1 & j1 & -> & H1 & -> & E).
  apply nil_sound in E as [-> E].
  apply literal_sound in E as (t2 & j2 & -> & -> & E).
  apply plus_sound in E as (ws2 & t3 & j3 & -> & H2 & -> & E).
  apply nil_sound in E as [-> E].
  apply literal_sound in E as (t4 & j4 & -> & -> & E).
  apply plus_sound in E as (ws3 & t5 & j5 & -> & H3 & -> & E).
  rewrite <- (app_nil_r (Re.literal method)) in E.
  apply literal_sound in E as (t6 & j6 & -> & -> & E).
  apply nil_sound in E as [-> E].
  exists ws1, ws2, ws3, t6. rewrite !length_app.
  repeat split; try done; simpl; lia.
Qed.

Lemma three_parts (A B C rest s : text) :
  s = A ++ B ++ C ++ rest ->
  take (length A) s = A
  /\ take (length C) (drop (length A + length B) s) = C
  /\ drop (length A + length B + length C) s = rest.
Proof.
  intros ->. split; [apply take_app_length|]. split.
  - rewrite app_assoc, <- length_app, drop_app_length. apply take_app_length.
  - rewrite !app_assoc, <- !length_app. apply drop_app_length.
Qed.

Lemma sub_go_removes (method s : text) (skip : nat) :
  keyword_removed method (drop skip s) (sub_go method skip s).
Proof.
  revert skip. induction s as [|c s IH]; intros skip.
  - rewrite drop_nil. simpl. constructor.
  - simpl. destruct skip as [|k]; [|apply IH].
    rewrite drop_0.
    destruct (match_at method (c :: s)) as [[n1 [n2 n3]]|] eqn:E.
    + destruct (match_at_sound _ _ _ _ _ E)
        as (ws1 & ws2 & ws3 & rest & Hs & H1 & H2 & H3 & Hb & -> & -> & ->).
      destruct (three_parts ws1 (lit "override" ++ ws2) (lit "func" ++ ws3 ++ method)
                            rest (c :: s)) as (-> & -> & Hd).
      { rewrite Hs, <- !app_assoc. done. }
      destruct (length ws1 + length (lit "override" ++ ws2)
                + length (lit "func" ++ ws3 ++ method))%nat as [|q] eqn:Hq.
      { rewrite !length_app in Hq. simpl in Hq. lia. }
      change (drop (S q) (c :: s)) with (drop q s) in Hd.
      rewrite Hs, <- !app_assoc.
      apply kr_drop; try done. rewrite <- Hd. apply IH.
    + apply kr_keep. rewrite <- (drop_0 s) at 1. apply IH.
Qed.

(** X11.  The loop of [fix_overrides.py] over the methods changes the
    text of a handler in one way only: the keyword [override] and the
    white space behind it are taken away at places where white space
    stands in front of the keyword and [func], white space and the name
    of the method follow, ending at a word boundary.  Every other
    character stays where it was. *)
Theorem only_the_keyword_is_removed (methods_to_fix : list text) (s : text) :
  keywords_removed methods_to_fix s (fix_content methods_to_fix s).
Proof.
  unfold fix_content. revert s.
  induction methods_to_fix as [|m ms IH]; intros s; simpl.
  - constructor.
  - eapply ks_cons; [|apply IH].
    unfold remove_override. rewrite <- (drop_0 s) at 1. apply sub_go_removes.
Qed.

End Overrides.

Section OverridesFound.
Import FixOverrides OverrideRun Run.

Lemma plus_exact {A} (re : Re.regex) (k : text -> option A) (ws t : text) n a :
  blank ws = true ->
  match t with [] => True | c :: _ => Re.space c = false end ->
  Re.match_k re k t = Some (n, a) ->
  Re.match_k (Re.Plus Re.space :: re) k (ws ++ t) = Some ((length ws + n)%nat, a).
Proof.
  intros Hws Ht Hk. destruct ws as [|x ws]; [done|].
  simpl in Hws. apply andb_true_iff in Hws as [Hx Hws].
  rewrite match_k_plus. cbn [app]. rewrite Hx.
  by rewrite (star_exact _ _ ws t (n, a) Hws Ht Hk).
Qed.

Lemma word_not_space (c : ascii) : word c = true -> Re.space c = false.
Proof.
  destruct c as [[] [] [] [] [] [] [] []]; vm_compute; congruence.
Qed.

(** The pattern matches the keyword in front of the method, from the
    white space before it to the end of the name. *)
Lemma match_at_complete (method ws1 ws2 ws3 post : text) :
  method <> [] -> forallb word method = true ->
  blank ws1 = true -> blank ws2 = true -> blank ws3 = true ->
  starts_with_word post = false ->
  match_at method
    (ws1 ++ lit "override" ++ ws2 ++ lit "func" ++ ws3 ++ method ++ post)
  = Some (length ws1, (length (lit "override" ++ ws2),
                       length (lit "func" ++ ws3 ++ method))).
Proof.
  intros Hne Hw H1 H2 H3 Hp. unfold match_at, group1, keyword, group2.
  assert (boundary (before_boundary method) post = Some tt) as Eb.
  { unfold boundary, before_boundary.
    destruct (last method) as [y|] eqn:El.
    - assert (word y = true) as Hy.
      { apply last_Some in El as [l' ->].
        rewrite forallb_app in Hw. cbn [forallb] in Hw.
        apply andb_true_iff in Hw as [_ Hw]. by apply andb_true_iff in Hw as [-> _]. }
      unfold starts_with_word in Hp.
      change (default " "%char (Some y)) with y. cbv zeta. by rewrite Hy, Hp.
    - apply last_None in El. done. }
  assert (Re.match_k (Re.literal method) (boundary (before_boundary method))
                     (method ++ post) = Some (length method, tt)) as E6.
  { rewrite <- (app_nil_r (Re.literal method)), literal_match.
    change (Re.match_k [] (boundary (before_boundary method)) post)
      with (pair 0%nat <$> boundary (before_boundary method) post).
    rewrite Eb. cbn [fmap option_fmap option_map]. by rewrite Nat.add_0_r. }
  assert (match method ++ post with [] => True | c :: _ => Re.space c = false end)
    as Hm.
  { destruct method as [|c m]; [done|]. simpl in Hw |- *.
    apply andb_true_iff in Hw as [Hc _]. by apply word_not_space. }
  pose proof (plus_exact _ _ ws3 (method ++ post) _ _ H3 Hm E6) as E5.
  assert (Re.match_k (Re.literal (lit "func") ++ [Re.Plus Re.space] ++ Re.literal method)
                     (boundary (before_boundary method))
                     (lit "func" ++ ws3 ++ method ++ post)
          = Some (length (lit "func" ++ ws3 ++ method), tt)) as E4.
  { rewrite literal_match. cbn [app]. rewrite E5.
    cbn [fmap option_fmap option_map]. by rewrite !length_app. }
  set (K2 := Re.match_k (Re.literal (lit "func") ++ [Re.Plus Re.space]
                         ++ Re.literal method) (boundary (before_boundary method)))
    in *.
  assert (Re.match_k [] K2 (lit "func" ++ ws3 ++ method ++ post)
          = Some (0%nat, (length (lit "func" ++ ws3 ++ method), tt))) as E4'.
  { change (Re.match_k [] K2 ?t) with (pair 0%nat <$> K2 t). by rewrite E4. }
  pose proof (plus_exact _ _ ws2 (lit "func" ++ ws3 ++ method ++ post) _ _ H2
                         ltac:(done) E4') as E3.
  assert (Re.match_k (Re.literal (lit "override") ++ [Re.Plus Re.space]) K2
                     (lit "override" ++ ws2 ++ lit "func" ++ ws3 ++ method ++ post)
          = Some (length (lit "override" ++ ws2),
                  (length (lit "func" ++ ws3 ++ method), tt))) as E2.
  { rewrite literal_match, E3. cbn [fmap option_fmap option_map].
    by rewrite Nat.add_0_r, length_app. }
  set (K1 := Re.match_k (Re.literal (lit "override") ++ [Re.Plus Re.space]) K2) in *.
  assert (Re.match_k [] K1
            (lit "override" ++ ws2 ++ lit "func" ++ ws3 ++ method ++ post)
          = Some (0%nat, (length (lit "override" ++ ws2),
                          (length (lit "func" ++ ws3 ++ method), tt)))) as E2'.
  { change (Re.match_k [] K1 ?t) with (pair 0%nat <$> K1 t). by rewrite E2. }
  pose proof (plus_exact [] K1 ws1
                (lit "override" ++ ws2 ++ lit "func" ++ ws3 ++ method ++ post)
                _ _ H1 ltac:(done) E2') as E1.
  rewrite E1.
  cbn [fmap option_fmap option_map]. by rewrite Nat.add_0_r.
Qed.

(** Where no match begins, the substitution copies. *)
Lemma override_sub_passes (method pre rest : text) :
  (forall a b, pre = a ++ b -> b <> [] -> match_at method (b ++ rest) = None) ->
  sub_go method 0 (pre ++ rest) = pre ++ sub_go method 0 rest.
Proof.
  induction pre as [|c pre IH]; intros H; [done|].
  cbn [app sub_go].
  pose proof (H [] (c :: pre) eq_refl ltac:(done)) as Hn. cbn [app] in Hn.
  rewrite Hn. f_equal. apply IH. intros a b -> Hb. by apply (H (c :: a) b).
Qed.

Lemma override_sub_skip (method a b : text) :
  sub_go method (length a) (a ++ b) = sub_go method 0 b.
Proof. induction a as [|c a IH]; [done|]. simpl. apply IH. Qed.

(** A text is a run of white space and a rest that does not begin with
    white space, in one way only. *)
Lemma space_run (s : text) :
  exists sp t, s = sp ++ t /\ forallb Re.space sp = true
               /\ match t with [] => True | c :: _ => Re.space c = false end.
Proof.
  induction s as [|c s (sp & t & -> & Hsp & Ht)].
  - by exists [], [].
  - destruct (Re.space c) eqn:Hc.
    + exists (c :: sp), t. simpl. by rewrite Hc, Hsp.
    + by exists [], (c :: sp ++ t).
Qed.

Lemma space_run_unique (sp1 sp2 t1 t2 : text) :
  sp1 ++ t1 = sp2 ++ t2 ->
  forallb Re.space sp1 = true -> forallb Re.space sp2 = true ->
  match t1 with [] => False | c :: _ => Re.space c = false end ->
  match t2 with [] => False | c :: _ => Re.space c = false end ->
  sp1 = sp2 /\ t1 = t2.
Proof.
  revert sp2. induction sp1 as [|x sp1 IH]; intros [|y sp2] H H1 H2 Ht1 Ht2;
    simpl in *.
  - done.
  - subst t1. apply andb_true_iff in H2 as [H2 _]. congruence.
  - subst t2. apply andb_true_iff in H1 as [H1 _]. congruence.
  - injection H as -> H. apply andb_true_iff in H1 as [_ H1].
    apply andb_true_iff in H2 as [_ H2].
    destruct (IH sp2 H H1 H2 Ht1 Ht2) as [-> ->]. done.
Qed.

Lemma blank_spaces (ws : text) : blank ws = true -> forallb Re.space ws = true.
Proof. by destruct ws. Qed.

(** No match begins in front of the first keyword when the text before
    it does not end in white space. *)
Lemma no_match_before (method pre ws1 R a b : text) :
  only_at_end (lit "override") (pre ++ ws1 ++ lit "override") ->
  ends_in_space pre = false ->
  pre = a ++ b -> b <> [] ->
  match_at method (b ++ ws1 ++ lit "override" ++ R) = None.
Proof.
  intros Ho He -> Hb.
  destruct (match_at _ _) as [[n1 [n2 n3]]|] eqn:E; [exfalso|done].
  apply match_at_sound in E
    as (w1 & w2 & w3 & rest & Hs & H1 & _ & _ & _ & _ & _ & _).
  destruct (space_run b) as (sp & t & -> & Hsp & Ht).
  destruct t as [|x t].
  { rewrite app_nil_r in He, Hb. unfold ends_in_space in He.
    rewrite last_app in He. destruct (last sp) as [y|] eqn:El.
    - apply last_Some in El as [l' ->]. rewrite forallb_app in Hsp.
      cbn [forallb] in Hsp. apply andb_true_iff in Hsp as [_ Hsp].
      apply andb_true_iff in Hsp as [Hsp _]. congruence.
    - apply last_None in El. done. }
  rewrite <- !app_assoc in Hs.
  apply space_run_unique in Hs as [<- Hs];
    [|done|by apply blank_spaces|done|done].
  apply (no_earlier_start (lit "override") ((a ++ sp ++ x :: t) ++ ws1)
                          (a ++ sp) ((x :: t) ++ ws1) R
                          (w2 ++ lit "func" ++ w3 ++ method ++ rest)).
  - rewrite <- app_assoc. exact Ho.
  - by rewrite <- !app_assoc.
  - done.
  - rewrite <- app_assoc. exact Hs.
Qed.

(** X12.  In a text where the keyword [override] stands for the first
    time in front of [func] and the name of the method (white space
    before the keyword and between the three words, the name made of
    word characters and not followed by one), one pass of
    [fix_overrides.py] for that method takes the keyword and the white
    space behind it away, leaves what stands before as it is, and goes
    on in what follows the name. *)
Theorem keyword_before_method_is_removed
        (method pre ws1 ws2 ws3 post : text) :
  method <> [] -> forallb word method = true ->
  blank ws1 = true -> blank ws2 = true -> blank ws3 = true ->
  starts_with_word post = false ->
  ends_in_space pre = false ->
  only_at_end (lit "override") (pre ++ ws1 ++ lit "override") ->
  remove_override method
    (pre ++ ws1 ++ lit "override" ++ ws2 ++ lit "func" ++ ws3 ++ method ++ post)
  = pre ++ ws1 ++ lit "func" ++ ws3 ++ method ++ remove_override method post.
Proof.
  intros Hne Hw H1 H2 H3 Hp He Ho. unfold remove_override.
  rewrite override_sub_passes
    by (intros a b Hab Hb; by apply (no_match_before method pre ws1 _ a b)).
  f_equal.
  pose proof (match_at_complete method ws1 ws2 ws3 post Hne Hw H1 H2 H3 Hp) as Hm.
  destruct (three_parts ws1 (lit "override" ++ ws2) (lit "func" ++ ws3 ++ method)
              post
              (ws1 ++ lit "override" ++ ws2 ++ lit "func" ++ ws3 ++ method ++ post))
    as (Ht1 & Ht2 & Hd); [by rewrite <- !app_assoc|].
  destruct ws1 as [|c ws1']; [done|].
  set (ws1 := c :: ws1') in *.
  change (ws1 ++ lit "override" ++ ws2 ++ lit "func" ++ ws3 ++ method ++ post)
    with (c :: ws1' ++ lit "override" ++ ws2 ++ lit "func" ++ ws3 ++ method ++ post)
    in Hm, Ht1, Ht2, Hd |- * at 1.
  cbn [sub_go]. rewrite Hm, Ht1, Ht2.
  change (length ws1) with (S (length ws1')).
  cbn [Nat.add].
  rewrite <- !app_assoc. f_equal. f_equal. f_equal. f_equal.
  replace (length ws1' + length (lit "override" ++ ws2)
           + length (lit "func" ++ ws3 ++ method))%nat
    with (length (ws1' ++ lit "override" ++ ws2 ++ lit "func" ++ ws3 ++ method))
    by (rewrite !length_app; lia).
  replace (ws1' ++ lit "override" ++ ws2 ++ lit "func" ++ ws3 ++ method ++ post)
    with ((ws1' ++ lit "override" ++ ws2 ++ lit "func" ++ ws3 ++ method) ++ post)
    by (by rewrite <- !app_assoc).
  apply override_sub_skip.
Qed.

End OverridesFound.

Lemma keyword_before_method_is_removed_witness :
  FixOverrides.remove_override (lit "prepareRequest")
    (lit "class Handler {" ++ [NL; TAB] ++ lit "override" ++ lit " " ++ lit "func"
     ++ lit " " ++ lit "prepareRequest" ++ lit "() {}")
  = lit "class Handler {" ++ [NL; TAB] ++ lit "func" ++ lit " "
    ++ lit "prepareRequest"
    ++ FixOverrides.remove_override (lit "prepareRequest") (lit "() {}").
Proof.
  apply (keyword_before_method_is_removed
           (lit "prepareRequest") (lit "class Handler {") [NL; TAB] (lit " ") (lit " ")
           (lit "() {}")).
  - discriminate.
  - reflexivity.
  - reflexivity.
  - reflexivity.
  - reflexivity.
  - reflexivity.
  - reflexivity.
  - apply (only_at_end_check (lit "override") (lit "class Handler {" ++ [NL; TAB]));
      [discriminate|]. vm_compute. reflexivity.
Defined.

Section OverrideRuns.
Import Sys FixOverrides.


End OverrideRuns.


Section OverridesAbsent.
Import FixOverrides OverrideRun.

Lemma keyword_removed_needs_keyword (method s t : text) :
  keyword_removed method s t -> ~ occurs (lit "override") s -> s = t.
Proof.
  induction 1 as [|c s t _ IH|ws1 ws2 ws3 s t _ _ _ _ _ _]; intros Hno.
  - done.
  - f_equal. apply IH. intros (a & b & ->). apply Hno. by exists (c :: a), b.
  - exfalso. apply Hno.
    by exists ws1, (ws2 ++ lit "func" ++ ws3 ++ method ++ s).
Qed.

(** X14.  A text in which the keyword [override] stands nowhere comes
    out of the loop of [fix_overrides.py] as it went in, whatever the
    methods are. *)
Theorem text_without_keyword_is_unchanged (methods_to_fix : list text) (s : text) :
  ~ occurs (lit "override") s -> fix_content methods_to_fix s = s.
Proof.
  intros Hno. unfold fix_content.
  induction methods_to_fix as [|m ms IH]; simpl; [done|].
  assert (remove_override m s = s) as ->; [|done].
  symmetry. apply (keyword_removed_needs_keyword m); [|done].
  unfold remove_override. rewrite <- (drop_0 s) at 1. apply sub_go_removes.
Qed.

End OverridesAbsent.

Lemma text_without_keyword_is_unchanged_witness :
  FixOverrides.fix_content FixOverrides.methods_to_fix
    (lit "class Handler {" ++ [NL; TAB] ++ lit "func prepareRequest() {}")
  = lit "class Handler {" ++ [NL; TAB] ++ lit "func prepareRequest() {}".
Proof.
  apply (text_without_keyword_is_unchanged FixOverrides.methods_to_fix
           (lit "class Handler {" ++ [NL; TAB] ++ lit "func prepareRequest() {}")).
  apply find_nat_None. vm_compute. reflexivity.
Defined.
